(** * FilterTrail: the row-count reconciler, the filter diff, the event log
    and its two projections, embedded from [src/main.py] and [src/reset_data.py].

    Python integers are [Z], strings are [string], lists are [list]; a
    [dict] that is iterated is an association list in insertion order with
    Python's order-blind equality; the header cache and the object store
    are [gmap]s.  A call into the spreadsheet application is an input of the
    model: every reading the code takes during one poll is a field of a
    probe record, an exception being [None]. *)

From Stdlib Require Import ZArith QArith String Ascii List Lia Bool Permutation Sorted.
From stdpp Require Import base decidable option list sorting numbers gmap strings pretty.

Local Open Scope string_scope.
Local Open Scope list_scope.
Local Open Scope Z_scope.

(** ** Row-count reconciler

    [ExcelFilterMonitor.background_monitoring], lines 247-279 (first capture)
    and 353-385 (polling loop): the same block twice, with a different
    [else] when no method gave a positive value. *)

Module Reconciler.

(** The three methods are tried in the order direct, special_cells,
    sampling; a method that raises is skipped, and so is a result that is
    not positive ([if rows > 0: visible_rows.append(rows)]). *)
Definition keep_positive (rows : option Z) : list Z :=
  match rows with
  | Some r => if bool_decide (0 < r) then [r] else []
  | None => []
  end.

Definition collect_visible_rows (direct special_cells sampling : option Z) : list Z :=
  keep_positive direct ++ keep_positive special_cells ++ keep_positive sampling.

(** Python's [min] and [max] of a list known to be non-empty. *)
Definition py_min (x : Z) (rest : list Z) : Z := foldr Z.min x rest.
Definition py_max (x : Z) (rest : list Z) : Z := foldr Z.max x rest.

(** [visible_rows.sort()]: ascending order. *)
Definition sort (l : list Z) : list Z := merge_sort Z.le l.

(** [min_count < max(visible_rows) * 0.8], read on exact numbers: the
    counts are row counts of a worksheet, far below 2^50, where the
    product is not an integer unless it is exact and so compares with an
    integer as 4*max/5 does. *)
Definition much_smaller (min_count max_count : Z) : bool :=
  bool_decide (5 * min_count < 4 * max_count).

(** The body of [if visible_rows:], [None] standing for the [else]. *)
Definition reconcile (visible_rows : list Z) : option Z :=
  match visible_rows with
  | [] => None
  | x :: rest =>
      let min_count := py_min x rest in
      if bool_decide (3 <= length visible_rows)%nat
         && much_smaller min_count (py_max x rest)
      then Some (nth (length visible_rows / 2)%nat (sort visible_rows) 0)
      else Some min_count
  end.

(** First capture (line 279): without estimates the count is [total_rows]. *)
Definition initial_row_count (visible_rows : list Z) (total_rows : Z) : Z :=
  default total_rows (reconcile visible_rows).

(** What "a median of [l]" means for a value:  at least half of the
    elements are not above it and at least half are not below it. *)
Definition count_le (m : Z) (l : list Z) : nat := length (filter (λ y, y <= m) l).
Definition count_ge (m : Z) (l : list Z) : nat := length (filter (λ y, m <= y) l).
Definition is_median (m : Z) (l : list Z) : Prop :=
  In m l ∧ (length l <= 2 * count_le m l)%nat ∧ (length l <= 2 * count_ge m l)%nat.

Definition is_minimum (m : Z) (l : list Z) : Prop :=
  In m l ∧ Forall (λ y, m <= y) l.
Definition is_maximum (m : Z) (l : list Z) : Prop :=
  In m l ∧ Forall (λ y, y <= m) l.

End Reconciler.

(** ** Data model *)

(** One entry of [added_filters] / [removed_filters]:
    [{"column": ..., "values": ..., "column_index": ...}]. *)
Record FilterEntry := {
  column : string;
  values : list string;
  column_index : Z
}.

Inductive Action := initial_connection | initial_state | filter_change.

(** A filter event, the unit of the log.  The first event of a session
    ([initial_connection]) is written without the key ["active_filters"]. *)
Record Event := {
  timestamp : string;
  action : Action;
  added_filters : list FilterEntry;
  removed_filters : list FilterEntry;
  previous_row_count : Z;
  current_row_count : Z;
  total_rows : Z;
  filter_column : string;
  filter_columns : list string;
  active_filters : option (list string)
}.

(** A value of the map returned by [get_current_filters()]:
    [{"values": ..., "column_index": ..., "last_detected": time.time()}].
    The clock reading is kept as an opaque number; only its equality is
    ever used.  The code's branches for an older, bare-list shape of these
    values ([isinstance(filter_info, dict)] false) never run on what
    [get_current_filters()] builds and are left out. *)
Record FilterInfo := {
  fi_values : list string;
  fi_column_index : Z;
  last_detected : Z
}.

#[global] Instance FilterEntry_eq_dec : EqDecision FilterEntry.
Proof. solve_decision. Defined.
#[global] Instance Action_eq_dec : EqDecision Action.
Proof. solve_decision. Defined.
#[global] Instance Event_eq_dec : EqDecision Event.
Proof. solve_decision. Defined.
#[global] Instance FilterInfo_eq_dec : EqDecision FilterInfo.
Proof. solve_decision. Defined.

(** ** Python dictionaries with string keys, in insertion order *)

Module Dict.
Section dict.
Context {V : Type} `{EqDecision V}.

Definition t := list (string * V).

(** [d.get(k)] *)
Fixpoint get (d : t) (k : string) : option V :=
  match d with
  | [] => None
  | (k', v) :: d' => if decide (k' = k) then Some v else get d' k
  end.

(** [k in d] *)
Definition mem (k : string) (d : t) : bool := bool_decide (is_Some (get d k)).

(** [d[k] = v]: an existing key keeps its place. *)
Fixpoint set (d : t) (k : string) (v : V) : t :=
  match d with
  | [] => [(k, v)]
  | (k', v') :: d' => if decide (k' = k) then (k, v) :: d' else (k', v') :: set d' k v
  end.

(** [d.keys()] *)
Definition keys (d : t) : list string := d.*1.

(** [d1 == d2]: same size and every item of [d1] found in [d2]. *)
Definition eqb (d1 d2 : t) : bool :=
  bool_decide (length d1 = length d2)
  && forallb (λ kv, bool_decide (get d2 kv.1 = Some kv.2)) d1.

(** A dictionary has each key once. *)
Definition wf (d : t) : Prop := NoDup (keys d).
End dict.
Arguments t : clear implicits.
End Dict.

(** ** Files *)

(** What reading a log file gives: the file is absent, has size zero,
    makes [open] or [json.load] raise, or holds a JSON array of events.
    The array is the only shape [save_filter_history] and the reset ever
    write; a readable file that holds another JSON value is outside this
    model (the visualizer answers it with the empty list, line 1039). *)
Inductive file :=
  | Missing
  | Blank
  | Garbage
  | Holds (events : list Event).

#[global] Instance file_eq_dec : EqDecision file.
Proof. solve_decision. Defined.

(** ["filter_data.json"] and ["filter_data_backup.json"]. *)
Record Disk := {
  data_file : file;
  backup_file : file
}.

(** [os.path.exists(f)] and [os.path.getsize(f) > 0] *)
Definition exists_ (f : file) : bool :=
  match f with Missing => false | _ => true end.
Definition nonempty (f : file) : bool :=
  match f with Missing | Blank => false | _ => true end.

(** [with open(f, 'r') as fh: json.load(fh)]; [None] when either raises.
    An empty file is not JSON. *)
Definition json_load (f : file) : option (list Event) :=
  match f with Holds l => Some l | _ => None end.

(** How one [save_filter_history()] fares: writing the primary file works;
    or [open] raises there and the backup is tried.  A failed [open] leaves
    the file as it was. *)
Record Writes := {
  primary_ok : bool;
  backup_ok : bool
}.

(** ** The monitor: [class ExcelFilterMonitor] *)

Record Monitor := {
  filter_history : list Event;
  last_known_filters : Dict.t FilterInfo;
  header_names : gmap Z string
}.

(** [save_filter_history] (lines 999-1014): the whole list, to the primary
    file, to the backup only when the primary cannot be written. *)
Definition save_filter_history (history : list Event) (w : Writes) (d : Disk) : Disk :=
  if primary_ok w then {| data_file := Holds history; backup_file := backup_file d |}
  else if backup_ok w then {| data_file := data_file d; backup_file := Holds history |}
  else d.

Definition max_history_length : nat := 100.

(** [loaded_history[-max_history_length:]] *)
Definition recent (loaded_history : list Event) : list Event :=
  drop (length loaded_history - max_history_length) loaded_history.

(** Lines 119-148: the load that opens a monitoring session.  [current] is
    [self.filter_history] as the previous session (or [__init__]) left it:
    nothing is assigned when the primary file is absent or empty. *)
Definition load_history (d : Disk) (current : list Event) : list Event :=
  if exists_ (data_file d) && nonempty (data_file d) then
    match json_load (data_file d) with
    | Some loaded_history =>
        if bool_decide (max_history_length < length loaded_history)%nat
        then recent loaded_history
        else loaded_history
    | None =>
        if exists_ (backup_file d) then default [] (json_load (backup_file d))
        else []
    end
  else current.

(** Lines 162-165: [total_rows] of the first event that has it positive,
    0 when there is none. *)
Definition original_total_rows (history : list Event) : Z :=
  match list_find (λ e, 0 < total_rows e) history with
  | Some (_, e) => total_rows e
  | None => 0
  end.

(** What the start of a session reads from the world. *)
Record Boot := {
  b_connect : option (gmap Z string);   (* headers read by [connect_to_excel]; [None]: no connection *)
  b_clock : string;                     (* [datetime.now()], line 180 *)
  b_total_rows : Z;                     (* the count of lines 183-200 *)
  b_direct : option Z;
  b_special_cells : option Z;
  b_sampling : option Z;
  b_filters : Dict.t FilterInfo;        (* [get_current_filters()], line 284 *)
  b_clock' : string;                    (* [datetime.now()], line 290 *)
  b_write : Writes;                     (* the save of line 223 *)
  b_write' : Writes                     (* the save of line 330 *)
}.

(** Lines 204-207: the [total_rows] of the session, the value found in the
    loaded log when there is one, else the count just taken. *)
Definition session_total (b : Boot) (loaded : list Event) : Z :=
  if bool_decide (0 < original_total_rows loaded)
  then original_total_rows loaded else b_total_rows b.

(** The state of the polling loop: the monitor object, the two files and
    the locals of [background_monitoring]. *)
Record Loop := {
  monitor : Monitor;
  disk : Disk;
  last_filter_state : Dict.t FilterInfo;
  last_row_count : Z;
  loop_total_rows : Z
}.

Definition entry_of (col : string) (filter_info : FilterInfo) : FilterEntry :=
  {| column := col; values := fi_values filter_info;
     column_index := fi_column_index filter_info |}.

(** Lines 211-221. *)
Definition connection_event (clock : string) (total : Z) : Event :=
  {| timestamp := clock; action := initial_connection;
     added_filters := []; removed_filters := [];
     previous_row_count := total; current_row_count := total; total_rows := total;
     filter_column := "All Data"; filter_columns := []; active_filters := None |}.

(** Lines 292-326. *)
Definition state_event (clock : string) (total rows : Z) (state : Dict.t FilterInfo) : Event :=
  let added := map (λ kv, entry_of kv.1 kv.2) state in
  let cols := map column added in
  {| timestamp := clock; action := initial_state;
     added_filters := added; removed_filters := [];
     previous_row_count := total; current_row_count := rows; total_rows := total;
     filter_column := default "Initial State" (head cols);
     filter_columns := cols; active_filters := Some (Dict.keys state) |}.

(** Lines 108-334: connect, load, settle [total_rows], log the connection
    and, when filters are already on, the initial state. *)
Definition start_session (b : Boot) (m : Monitor) (d : Disk) : option Loop :=
  match b_connect b with
  | None => None
  | Some headers =>
      let history := load_history d (filter_history m) in
      let original := original_total_rows history in
      let last_row_count0 := default 0 (current_row_count <$> last history) in
      let should_add_initial_state :=
        negb (bool_decide (0 < original) && bool_decide (0 < last_row_count0)) in
      let total := session_total b history in
      let history1 :=
        if should_add_initial_state
        then history ++ [connection_event (b_clock b) total] else history in
      let d1 :=
        if should_add_initial_state
        then save_filter_history history1 (b_write b) d else d in
      let visible_rows :=
        Reconciler.collect_visible_rows (b_direct b) (b_special_cells b) (b_sampling b) in
      let rows := Reconciler.initial_row_count visible_rows total in
      let state := b_filters b in
      let filtered := negb (bool_decide (state = [])) && bool_decide (rows < total) in
      let history2 :=
        if filtered then history1 ++ [state_event (b_clock' b) total rows state]
        else history1 in
      let d2 := if filtered then save_filter_history history2 (b_write' b) d1 else d1 in
      Some {| monitor := {| filter_history := history2;
                            last_known_filters := state;
                            header_names := headers |};
              disk := d2;
              last_filter_state := state;
              last_row_count := rows;
              loop_total_rows := total |}
  end.

(** ** One poll of the loop, lines 336-620 *)

(** [worksheet.Cells(1, i).Value]: the read raises, gives a falsy value
    ([None], the empty string, zero), or a value whose [str] is [s]. *)
Inductive cell := CellRaises | CellFalsy | CellText (s : string).

(** What one poll reads from the world. *)
Record Probe := {
  p_alive : bool;                         (* [is_excel_alive()] *)
  p_reconnect : option (gmap Z string);   (* [connect_to_excel()] after a loss; [None]: it failed *)
  p_filters : Dict.t FilterInfo;          (* [get_current_filters()], line 347 *)
  p_direct : option Z;
  p_special_cells : option Z;
  p_sampling : option Z;
  p_visible : option Z;                   (* [get_visible_row_count()], line 385 *)
  p_updated : option Z;                   (* [get_direct_visible_count()], line 397 *)
  p_clock : string;                       (* [datetime.now()], line 405 *)
  p_autofilter : bool;                    (* the sheet has a truthy [AutoFilter] *)
  p_filter_on : Z → bool;                 (* [AutoFilter.Filters(i)] is returned and is [On] *)
  p_header_cell : Z → cell;
  p_write : Writes                        (* the save of line 614 *)
}.

(** Lines 414-439: one item of [current_filters]. *)
Definition scan_current (last : Dict.t FilterInfo)
    (acc : list FilterEntry * list string) (item : string * FilterInfo)
    : list FilterEntry * list string :=
  let '(added_filters, filter_columns) := acc in
  let '(col, filter_info) := item in
  match Dict.get last col with
  | None => (added_filters ++ [entry_of col filter_info], filter_columns ++ [col])
  | Some old =>
      if bool_decide (fi_values filter_info ≠ fi_values old)
      then (added_filters ++ [entry_of col filter_info], filter_columns ++ [col])
      else acc
  end.

(** Lines 442-458: one item of [last_filter_state]. *)
Definition scan_last (current : Dict.t FilterInfo)
    (acc : list FilterEntry * list string) (item : string * FilterInfo)
    : list FilterEntry * list string :=
  let '(removed_filters, filter_columns) := acc in
  let '(col, filter_info) := item in
  if Dict.mem col current then acc
  else (removed_filters ++ [entry_of col filter_info],
        filter_columns ++ ["Remove " +:+ col]).

(** What the search for the changed column carries (lines 466-528). *)
Record Detect := {
  dt_columns : list string;
  dt_added : list FilterEntry;
  dt_known : Dict.t FilterInfo;
  dt_active : bool                        (* [has_active_filter] *)
}.

(** Lines 472-526: column [i] of [range(1, 100)]. *)
Definition detect_column (p : Probe) (current : Dict.t FilterInfo)
    (acc : Detect) (i : Z) : Detect :=
  if p_filter_on p i then
    let seen := {| dt_columns := dt_columns acc; dt_added := dt_added acc;
                   dt_known := dt_known acc; dt_active := true |} in
    match p_header_cell p i with
    | CellText col_name =>
        match Dict.get current col_name with
        | Some filter_info =>
            let touched :=
              {| dt_columns := dt_columns acc ++ [col_name];
                 dt_added := dt_added acc ++ [entry_of col_name filter_info];
                 dt_known := Dict.set (dt_known acc) col_name filter_info;
                 dt_active := true |} in
            match Dict.get (dt_known acc) col_name with
            | None => touched
            | Some known =>
                if bool_decide (fi_values known ≠ fi_values filter_info) then touched
                else {| dt_columns := dt_columns acc ++ [col_name];
                        dt_added := dt_added acc;
                        dt_known := dt_known acc; dt_active := true |}
            end
        | None => seen
        end
    | _ => seen
    end
  else acc.

(** Lines 466-535. *)
Definition detect_changed_column (p : Probe) (current : Dict.t FilterInfo)
    (known : Dict.t FilterInfo) : Detect :=
  let start := {| dt_columns := []; dt_added := []; dt_known := known; dt_active := false |} in
  let found :=
    if p_autofilter p then foldl (detect_column p current) start (seqZ 1 99) else start in
  if bool_decide (dt_columns found = [])
     && (dt_active found || negb (bool_decide (current = [])))
  then {| dt_columns := Dict.keys current; dt_added := dt_added found;
          dt_known := dt_known found; dt_active := dt_active found |}
  else found.

(** [if col_name not in filter_columns: filter_columns.append(col_name)] *)
Definition add_once (col_name : string) (filter_columns : list string) : list string :=
  if bool_decide (col_name ∈ filter_columns) then filter_columns
  else filter_columns ++ [col_name].

(** Lines 553-568: column [i] of [range(1, 200)]. *)
Definition name_column (p : Probe)
    (acc : gmap Z string * list string) (i : Z) : gmap Z string * list string :=
  let '(names, filter_columns) := acc in
  if p_filter_on p i then
    match names !! i with
    | Some (String a col_name) => (names, add_once (String a col_name) filter_columns)
    | _ =>
        match p_header_cell p i with
        | CellRaises => acc
        | CellFalsy =>
            let col_name := "Column " +:+ pretty i in
            (<[i := col_name]> names, add_once col_name filter_columns)
        | CellText col_name =>
            (<[i := col_name]> names, add_once col_name filter_columns)
        end
    end
  else acc.

(** Lines 544-584: the display label of the event. *)
Definition display_filter_column (added_filters removed_filters : list FilterEntry)
    (row_count_changed filter_state_changed : bool)
    (current_filters : Dict.t FilterInfo) : string :=
  let display :=
    match added_filters, removed_filters with
    | first :: _, _ => column first
    | [], first :: _ => "Remove " +:+ column first
    | [], [] =>
        if row_count_changed && negb filter_state_changed then "Row Count Change"
        else "Filter Change"
    end in
  if bool_decide (current_filters = []) && row_count_changed then "No Filters"
  else display.

(** [abs(last_row_count - current_row_count) > total_rows * 0.001], on
    exact numbers. *)
Definition above_noise (last_row_count current_row_count total : Z) : bool :=
  bool_decide (total < 1000 * Z.abs (last_row_count - current_row_count)).

(** What the body of [if filter_state_changed or row_count_changed] works
    out before the event is weighed: the event, the filters now known and
    the header cache. *)
Record Change := {
  ch_event : Event;
  ch_known : Dict.t FilterInfo;
  ch_names : gmap Z string
}.

(** Lines 395-602.  In the search of lines 466-535 the lists
    [added_filters] and [filter_columns] are still empty, the filter state
    being unchanged there. *)
Definition describe_change (p : Probe) (s : Loop) (polled : Z)
    (row_count_changed filter_state_changed : bool) : Change :=
  let current_filters := p_filters p in
  let current_row_count :=
    match p_updated p with
    | Some updated_count => if bool_decide (0 < updated_count) then updated_count else polled
    | None => polled
    end in
  let m := monitor s in
  let scanned :=
    if filter_state_changed
    then foldl (scan_current (last_filter_state s)) ([], []) current_filters
    else ([], []) in
  let dropped :=
    if filter_state_changed
    then foldl (scan_last current_filters) ([], scanned.2) (last_filter_state s)
    else ([], scanned.2) in
  let removed_filters := dropped.1 in
  let known := if filter_state_changed then current_filters else last_known_filters m in
  let found :=
    if row_count_changed && negb filter_state_changed
    then detect_changed_column p current_filters known
    else {| dt_columns := dropped.2; dt_added := scanned.1;
            dt_known := known; dt_active := false |} in
  let added_filters := dt_added found in
  let filter_columns :=
    if bool_decide (dt_columns found = []) && row_count_changed
    then ["Row Count Change"] else dt_columns found in
  let named :=
    if filter_state_changed && p_autofilter p
    then foldl (name_column p) (header_names m, filter_columns) (seqZ 1 199)
    else (header_names m, filter_columns) in
  {| ch_event :=
       {| timestamp := p_clock p; action := filter_change;
          added_filters := added_filters; removed_filters := removed_filters;
          previous_row_count := last_row_count s;
          current_row_count := current_row_count;
          total_rows := loop_total_rows s;
          filter_column :=
            display_filter_column added_filters removed_filters
              row_count_changed filter_state_changed current_filters;
          filter_columns := named.2;
          active_filters := Some (Dict.keys current_filters) |};
     ch_known := dt_known found;
     ch_names := named.1 |}.

(** Line 612: [if added_filters or removed_filters or abs(...) > ...]. *)
Definition significant (s : Loop) (filter_event : Event) : bool :=
  negb (bool_decide (added_filters filter_event = []))
  || negb (bool_decide (removed_filters filter_event = []))
  || above_noise (last_row_count s) (current_row_count filter_event) (loop_total_rows s).

(** Lines 394-617: the body of [if filter_state_changed or row_count_changed]. *)
Definition record_change (p : Probe) (s : Loop) (polled : Z)
    (row_count_changed filter_state_changed : bool) : Loop :=
  let c := describe_change p s polled row_count_changed filter_state_changed in
  let filter_event := ch_event c in
  let history :=
    if significant s filter_event
    then filter_history (monitor s) ++ [filter_event]
    else filter_history (monitor s) in
  {| monitor := {| filter_history := history;
                   last_known_filters := ch_known c;
                   header_names := ch_names c |};
     disk :=
       if significant s filter_event
       then save_filter_history history (p_write p) (disk s) else disk s;
     last_filter_state := p_filters p;
     last_row_count := current_row_count filter_event;
     loop_total_rows := loop_total_rows s |}.

(** [abs(current_row_count - last_row_count) > 2] *)
Definition jitter (current_row_count last : Z) : bool :=
  bool_decide (2 < Z.abs (current_row_count - last)).

(** The row count of the poll, lines 353-388: [None] when the call of
    line 385 raises and the poll is given up. *)
Definition poll_row_count (p : Probe) : option Z :=
  match Reconciler.reconcile
          (Reconciler.collect_visible_rows (p_direct p) (p_special_cells p) (p_sampling p)) with
  | Some n => Some n
  | None => p_visible p
  end.

Definition tick (p : Probe) (s : Loop) : Loop :=
  if negb (p_alive p) then
    match p_reconnect p with
    | Some headers =>
        {| monitor := {| filter_history := filter_history (monitor s);
                         last_known_filters := last_known_filters (monitor s);
                         header_names := headers |};
           disk := disk s; last_filter_state := last_filter_state s;
           last_row_count := last_row_count s; loop_total_rows := loop_total_rows s |}
    | None => s
    end
  else
    match poll_row_count p with
    | None => s
    | Some current_row_count =>
        let row_count_changed := jitter current_row_count (last_row_count s) in
        let filter_state_changed := negb (Dict.eqb (p_filters p) (last_filter_state s)) in
        if filter_state_changed || row_count_changed
        then record_change p s current_row_count row_count_changed filter_state_changed
        else s
    end.

(** The loop runs [tick] until it is stopped; [stop] is the save of the
    [finally] clause (line 630). *)
Definition run (probes : list Probe) (s : Loop) : Loop := foldl (flip tick) s probes.

Definition stop (w : Writes) (s : Loop) : Monitor * Disk :=
  (monitor s, save_filter_history (filter_history (monitor s)) w (disk s)).

(** [background_monitoring] from its first line to its last; without a
    connection it returns at once. *)
Definition background_monitoring (b : Boot) (probes : list Probe) (w : Writes)
    (md : Monitor * Disk) : Monitor * Disk :=
  match start_session b md.1 md.2 with
  | Some s => stop w (run probes s)
  | None => md
  end.

(** ** The visualizer: [class FilterVisualizer] *)

(** [load_filter_history] (lines 1032-1066). *)
Definition load_filter_history (d : Disk) : list Event :=
  if exists_ (data_file d) && nonempty (data_file d) then
    match json_load (data_file d) with
    | Some data => data
    | None =>
        if exists_ (backup_file d) then default [] (json_load (backup_file d))
        else []
    end
  else [].

(** [reset_filter_data] of [src/reset_data.py], and the same writes in
    [FilterTrailApp.reset_data] (lines 2543-2553). *)
Definition reset_filter_data (d : Disk) : Disk :=
  {| data_file := Holds [];
     backup_file := if exists_ (backup_file d) then Holds [] else backup_file d |}.

(** A node of the flow graph carries the three values its text
    [f"{filter_col} ({row_count:,}, {percentage:.1f}%)"] is printed from.
    Colours and link labels, computed with floating-point ratios and
    number formatting, are left to the plotting side. *)
Inductive Node :=
  | AllData
  | Step (filter_col : string) (row_count : Z) (total : Z).

Record Sankey := {
  nodes : list Node;
  links_source : list nat;
  links_target : list nat;
  links_value : list Z
}.

(** The figure handed to the plotting library: a bare figure with a
    notice, or the diagram. *)
Inductive Figure :=
  | NoData
  | Diagram (g : Sankey).

(** Lines 1271-1280: the name of step [i] (counted from 0). *)
Definition step_filter_col (i : nat) (event : Event) : string :=
  match filter_column event with
  | String _ _ => filter_column event
  | EmptyString =>
      match added_filters event, removed_filters event with
      | first :: _, _ => column first
      | [], first :: _ => "Remove " +:+ column first
      | [], [] => "Step " +:+ pretty (i + 1)%nat
      end
  end.

(** Lines 1269-1372: the body of [for i, event in enumerate(...)], for the
    events from position [i] on. *)
Fixpoint add_events (i : nat) (events : list Event) (g : Sankey) : Sankey :=
  match events with
  | [] => g
  | event :: rest =>
      add_events (S i) rest
        {| nodes := nodes g
             ++ [Step (step_filter_col i event) (current_row_count event) (total_rows event)];
           links_source := links_source g ++ [if bool_decide (0 < i)%nat then i else 0%nat];
           links_target := links_target g ++ [(i + 1)%nat];
           links_value := links_value g ++ [Z.max 1 (current_row_count event)] |}
  end.

(** [create_sankey_diagram] (lines 1228-1399). *)
Definition create_sankey_diagram (filter_history : list Event) : Figure :=
  match filter_history with
  | [] => NoData
  | _ =>
      Diagram (add_events 0 filter_history
                 {| nodes := [AllData]; links_source := [];
                    links_target := []; links_value := [] |})
  end.

Definition node_count (f : Figure) : nat :=
  match f with NoData => 0%nat | Diagram g => length (nodes g) end.
Definition link_count (f : Figure) : nat :=
  match f with NoData => 0%nat | Diagram g => length (links_value g) end.

(** ** The window's timer beside the loop

    While a session runs, the window's timer calls [auto_refresh_handler]
    once a second (lines 1709, 1915-1930, 2003).  Of the
    [refresh_visualization] it starts the monitor sees lines 2571-2575:
    the file is read whole and, when it holds events, its list takes the
    place of [self.monitor.filter_history].  A poll and a refresh are each
    taken as one move; the second component of the state is
    [self.visualizer.filter_history]. *)

Inductive Move :=
  | Poll (p : Probe)
  | Refresh.

Definition with_history (s : Loop) (history : list Event) : Loop :=
  {| monitor := {| filter_history := history;
                   last_known_filters := last_known_filters (monitor s);
                   header_names := header_names (monitor s) |};
     disk := disk s; last_filter_state := last_filter_state s;
     last_row_count := last_row_count s; loop_total_rows := loop_total_rows s |}.

(** Lines 1921-1930, then 2571-2575. *)
Definition auto_refresh (ws : Loop * list Event) : Loop * list Event :=
  if bool_decide (ws.2 = []) && bool_decide (filter_history (monitor ws.1) = []) then ws
  else
    let data := load_filter_history (disk ws.1) in
    match data with
    | [] => (ws.1, data)
    | _ => (with_history ws.1 data, data)
    end.

Definition move (ws : Loop * list Event) (x : Move) : Loop * list Event :=
  match x with
  | Poll p => (tick p ws.1, ws.2)
  | Refresh => auto_refresh ws
  end.

Definition play (moves : list Move) (ws : Loop * list Event) : Loop * list Event :=
  foldl move ws moves.

(** ** Renaming a step: [FilterTrailApp.on_filter_column_edited]

    The application holds two lists of events, the visualizer's and the
    monitor's.  Their elements are Python dictionaries that the rename
    changes in place, and [refresh_visualization] makes the monitor's list
    a shallow copy of the visualizer's, so one dictionary can sit in both.
    The events therefore live in a store and the lists hold addresses. *)

Module App.

Definition loc := nat.

Record State := {
  store : list Event;             (* every event object made so far, by address *)
  visualizer : list loc;          (* [self.visualizer.filter_history] *)
  monitor : list loc;             (* [self.monitor.filter_history] *)
  headers : gmap Z string;        (* [self.monitor.header_names] *)
  files : Disk
}.

(** The events a list of addresses stands for. *)
Definition contents (store : list Event) (history : list loc) : list Event :=
  omap (λ l, store !! l) history.

(** [event in history]: some element is the same object or an equal one. *)
Definition py_in (store : list Event) (l : loc) (history : list loc) : bool :=
  existsb (λ l', bool_decide (store !! l' = store !! l)) history.

(** [self.visualizer.load_filter_history()]: the list read from the files
    is made of new objects. *)
Definition visualizer_load (st : State) : State :=
  let data := load_filter_history (files st) in
  {| store := store st ++ data;
     visualizer := seq (length (store st)) (length data);
     monitor := monitor st;
     headers := headers st;
     files := files st |}.

(** [refresh_visualization], lines 2571-2575: reload, then
    [self.monitor.filter_history = self.visualizer.filter_history.copy()]
    when the reloaded list is not empty. *)
Definition refresh_visualization (st : State) : State :=
  let st' := visualizer_load st in
  match visualizer st' with
  | [] => st'
  | _ => {| store := store st'; visualizer := visualizer st';
            monitor := visualizer st'; headers := headers st'; files := files st' |}
  end.

(** Lines 2120-2129: the visualizer's list is asked first. *)
Definition at_index (history : list loc) (event_index : Z) : option loc :=
  match history with
  | [] => None
  | _ =>
      if bool_decide (0 <= event_index) && bool_decide (event_index < Z.of_nat (length history))
      then history !! Z.to_nat event_index
      else None
  end.

Definition resolve (st : State) (event_index : Z) : option loc :=
  match at_index (visualizer st) event_index with
  | Some l => Some l
  | None => at_index (monitor st) event_index
  end.

(** [x = new_name if x == original_name else x] *)
Definition rename (original_name new_name x : string) : string :=
  if decide (x = original_name) then new_name else x.

Definition rename_entry (original_name new_name : string) (f : FilterEntry) : FilterEntry :=
  {| column := rename original_name new_name (column f);
     values := values f; column_index := column_index f |}.

(** Lines 2146-2160: what the rename writes into the event. *)
Definition rename_event (original_name new_name : string) (event : Event) : Event :=
  {| timestamp := timestamp event; action := action event;
     added_filters := map (rename_entry original_name new_name) (added_filters event);
     removed_filters := map (rename_entry original_name new_name) (removed_filters event);
     previous_row_count := previous_row_count event;
     current_row_count := current_row_count event;
     total_rows := total_rows event;
     filter_column := new_name;
     filter_columns := map (rename original_name new_name) (filter_columns event);
     active_filters := active_filters event |}.

(** Lines 2164-2166. *)
Definition rename_headers (original_name new_name : string)
    (names : gmap Z string) : gmap Z string :=
  rename original_name new_name <$> names.

(** Lines 2174-2177 and 2187-2190: the first element of [history] with the
    timestamp of the event at [l] is replaced by [event.copy()]. *)
Definition copy_into (store : list Event) (history : list loc) (l : loc)
    : list Event * list loc :=
  match store !! l with
  | None => (store, history)
  | Some event =>
      match list_find (λ l', timestamp <$> store !! l' = Some (timestamp event)) history with
      | Some (i, _) => (store ++ [event], <[i := length store]> history)
      | None => (store, history)
      end
  end.

Definition protected : list string := ["All Data"; "Initial State"].

(** [on_filter_column_edited] (lines 2109-2205).  The class
    [FilterVisualizer] has no [save_filter_history], so line 2194 never
    runs; the last step is the reload made by [refresh_sankey_diagram]. *)
Definition on_filter_column_edited (event_index : Z) (new_name : string)
    (w : Writes) (st : State) : State :=
  match resolve st event_index with
  | None => st
  | Some l =>
      match store st !! l with
      | None => st
      | Some event =>
          let original_name := filter_column event in
          if bool_decide (original_name = "") || bool_decide (new_name = "") then st
          else if bool_decide (original_name ∈ protected) then refresh_visualization st
          else
            let store1 := <[l := rename_event original_name new_name event]> (store st) in
            let headers1 := rename_headers original_name new_name (headers st) in
            let '(store2, monitor2) :=
              if py_in store1 l (visualizer st) && negb (py_in store1 l (monitor st))
              then copy_into store1 (monitor st) l
              else (store1, monitor st) in
            let files2 := save_filter_history (contents store2 monitor2) w (files st) in
            let '(store3, visualizer3) :=
              if py_in store2 l monitor2 && negb (py_in store2 l (visualizer st))
              then copy_into store2 (visualizer st) l
              else (store2, visualizer st) in
            visualizer_load
              {| store := store3; visualizer := visualizer3; monitor := monitor2;
                 headers := headers1; files := files2 |}
      end
  end.

(** The log as the table and the graph show it after an operation. *)
Definition shown (st : State) : list Event := contents (store st) (visualizer st).
Definition kept (st : State) : list Event := contents (store st) (monitor st).

End App.

(** ** The specification's wording, for comparison with the code

    These follow the sentences of the specification, not the source. *)

Module Stated.

(** §4.2 step 1: with no estimate the previous count is carried forward. *)
Definition carried_forward (p : Probe) (s : Loop) : Prop :=
  Reconciler.collect_visible_rows (p_direct p) (p_special_cells p) (p_sampling p) = [] →
  poll_row_count p = Some (last_row_count s).

(** §4.3: the label in the five-step priority order. *)
Definition filter_column_of (added_filters removed_filters : list FilterEntry)
    (row_count_changed filter_state_changed : bool)
    (current : Dict.t FilterInfo) : string :=
  match added_filters, removed_filters with
  | first :: _, _ => column first
  | [], first :: _ => "Remove " +:+ column first
  | [], [] =>
      if row_count_changed && negb filter_state_changed then "Row Count Change"
      else if bool_decide (current = []) && row_count_changed then "No Filters"
      else "Filter Change"
  end.

(** §4.3: [filter_state_changed] := [added_filters] or [removed_filters]
    non-empty. *)
Definition filter_state_changed (added_filters removed_filters : list FilterEntry) : bool :=
  negb (bool_decide (added_filters = [])) || negb (bool_decide (removed_filters = [])).

Definition priority_label (p : Probe) (s : Loop) : Prop :=
  ∀ e c,
    filter_history (monitor (tick p s)) = filter_history (monitor s) ++ [e] →
    poll_row_count p = Some c →
    filter_column e =
      filter_column_of (added_filters e) (removed_filters e)
        (jitter c (last_row_count s))
        (filter_state_changed (added_filters e) (removed_filters e))
        (p_filters p).

(** §4.3: no column is present in [current] but absent from [previous],
    or present in both with different [values], and none is present in
    [previous] but absent from [current]. *)
Definition same_filters (previous current : Dict.t FilterInfo) : Prop :=
  ∀ col, fi_values <$> Dict.get previous col = fi_values <$> Dict.get current col.

(** §4.3 and §8: with equal maps and row counts that differ by at most 2
    nothing is appended for the tick. *)
Definition no_event (p : Probe) (s : Loop) : Prop :=
  same_filters (last_filter_state s) (p_filters p) →
  (∀ c, poll_row_count p = Some c → Z.abs (c - last_row_count s) <= 2) →
  filter_history (monitor (tick p s)) = filter_history (monitor s).

(** §4.4 [load()]: the primary when it can be read, else the backup, else
    nothing. *)
Definition load (d : Disk) : list Event :=
  match json_load (data_file d) with
  | Some events => events
  | None => default [] (json_load (backup_file d))
  end.

Definition loaded_with_fallback (d : Disk) : Prop :=
  load_filter_history d = load d.

(** §3: every event of the log carries one and the same [total_rows]. *)
Definition one_total (log : list Event) : Prop :=
  ∀ e e', e ∈ log → e' ∈ log → total_rows e = total_rows e'.

(** §8: node count = event count + 1 and link count = event count. *)
Definition graph_sizes (log : list Event) : Prop :=
  node_count (create_sankey_diagram log) = S (length log)
  ∧ link_count (create_sankey_diagram log) = length log.

(** §4.4: loading and saving never shortens the file. *)
Definition not_shortened (before after : Disk) : Prop :=
  (length (default [] (json_load (data_file before)))
   <= length (default [] (json_load (data_file after))))%nat.

(** §4.6 and §8: after the rename of step [event_index] the log shows the
    new name there. *)
Definition renamed_at (event_index : nat) (new_name : string) (st : App.State) : Prop :=
  filter_column <$> App.shown st !! event_index = Some new_name.

End Stated.

(** ** What holds of the log: [total_rows] *)

(** From the first event with a positive [total_rows] on, every event
    carries that value. *)
Definition settled (log : list Event) : Prop :=
  ∀ i j ei ej, log !! i = Some ei → log !! j = Some ej → (i <= j)%nat →
    0 < total_rows ei → total_rows ej = total_rows ei.

(** ** What holds of the file during a session

    [l] is the list the file held when the session loaded it. *)

(** The monitor still works on the list as loaded, cut to its last 100
    events, and the file is as it was. *)
Definition capped (l : list Event) (s : Loop) : Prop :=
  data_file (disk s) = Holds l
  ∧ ∃ x, filter_history (monitor s) = drop (length l - 100) l ++ x.

(** The file holds [k] and more, and the monitor's list is the file's list
    and more. *)
Definition grows (k : list Event) (s : Loop) : Prop :=
  ∃ z y, data_file (disk s) = Holds (k ++ z)
    ∧ filter_history (monitor s) = (k ++ z) ++ y.

(** ** Concrete inputs used below *)

Module Sample.

Definition ok : Writes := {| primary_ok := true; backup_ok := true |}.

Definition region : FilterInfo :=
  {| fi_values := ["East"]; fi_column_index := 2; last_detected := 1714557600 |}.

(** A poll on a sheet without filters whose three methods agree on [n]. *)
Definition quiet (n : Z) : Probe :=
  {| p_alive := true; p_reconnect := None; p_filters := [];
     p_direct := Some n; p_special_cells := Some n; p_sampling := Some n;
     p_visible := Some n; p_updated := Some n;
     p_clock := "2024-05-01 10:00:05";
     p_autofilter := false; p_filter_on := λ _, false;
     p_header_cell := λ _, CellFalsy; p_write := ok |}.

(** A poll in which no method gives a positive value. *)
Definition blind : Probe :=
  {| p_alive := true; p_reconnect := None; p_filters := [];
     p_direct := Some 0; p_special_cells := Some 0; p_sampling := None;
     p_visible := Some 0; p_updated := Some 0;
     p_clock := "2024-05-01 10:00:05";
     p_autofilter := false; p_filter_on := λ _, false;
     p_header_cell := λ _, CellFalsy; p_write := ok |}.

Definition no_monitor : Monitor :=
  {| filter_history := []; last_known_filters := []; header_names := ∅ |}.

(** The loop with the filter [Region = East] on, 40 of 100 rows showing. *)
Definition filtered : Loop :=
  {| monitor := {| filter_history := [connection_event "2024-05-01 10:00:00" 100;
                                      state_event "2024-05-01 10:00:00" 100 40
                                        [("Region", region)]];
                   last_known_filters := [("Region", region)];
                   header_names := {[ 2 := "Region" ]} |};
     disk := {| data_file := Missing; backup_file := Missing |};
     last_filter_state := [("Region", region)];
     last_row_count := 40;
     loop_total_rows := 100 |}.

(** The loop with no filter on, 50 of 100 rows counted. *)
Definition unfiltered : Loop :=
  {| monitor := {| filter_history := [connection_event "2024-05-01 10:00:00" 100];
                   last_known_filters := []; header_names := ∅ |};
     disk := {| data_file := Missing; backup_file := Missing |};
     last_filter_state := [];
     last_row_count := 50;
     loop_total_rows := 100 |}.

(** The start of a session on a sheet of [n] rows without filters. *)
Definition boot (n : Z) : Boot :=
  {| b_connect := Some ∅; b_clock := "2024-05-01 10:00:00"; b_total_rows := n;
     b_direct := Some n; b_special_cells := Some n; b_sampling := Some n;
     b_filters := []; b_clock' := "2024-05-01 10:00:00";
     b_write := ok; b_write' := ok |}.

Definition no_files : Disk := {| data_file := Missing; backup_file := Missing |}.

(** A log file of 101 events. *)
Definition long_log : list Event :=
  replicate 101 (connection_event "2024-05-01 10:00:00" 100).

(** A log of two events written in the same second. *)
Definition two_steps : list Event :=
  [connection_event "2024-05-01 10:00:00" 100;
   state_event "2024-05-01 10:00:00" 100 40 [("Region", region)]].

(** The appended event of the poll [quiet 100] in the state [filtered]. *)
Definition cleared : Event :=
  {| timestamp := "2024-05-01 10:00:05"; action := filter_change;
     added_filters := [];
     removed_filters := [{| column := "Region"; values := ["East"]; column_index := 2 |}];
     previous_row_count := 40; current_row_count := 100; total_rows := 100;
     filter_column := "No Filters"; filter_columns := ["Remove Region"];
     active_filters := Some [] |}.

(** A first session on an empty sheet, then a second one on 100 rows. *)
Definition first_session : Monitor * Disk :=
  background_monitoring (boot 0) [] ok (no_monitor, no_files).
Definition second_session : Monitor * Disk :=
  background_monitoring (boot 100) [] ok first_session.

(** The primary file was cut to size zero, the backup holds two events. *)
Definition cut_primary : Disk :=
  {| data_file := Blank; backup_file := Holds two_steps |}.
(** The primary file is unreadable, the backup holds two events. *)
Definition broken_primary : Disk :=
  {| data_file := Garbage; backup_file := Holds two_steps |}.

Definition long_disk : Disk :=
  {| data_file := Holds long_log; backup_file := Missing |}.
Definition short_disk : Disk :=
  {| data_file := Holds two_steps; backup_file := Missing |}.

(** The loop as a session on [short_disk] starts it. *)
Definition resumed : Loop :=
  default unfiltered (start_session (boot 100) no_monitor short_disk).

(** The application right after [refresh_visualization] on [two_steps]. *)
Definition opened : App.State :=
  App.refresh_visualization
    {| App.store := []; App.visualizer := []; App.monitor := [];
       App.headers := {[ 2 := "Region" ]};
       App.files := {| data_file := Holds two_steps; backup_file := Missing |} |}.

End Sample.

(** ** The header cache: [ExcelFilterMonitor.read_all_headers] *)

(** [header_row.Value]: the read raises, gives a value that is not a
    tuple, or gives the cells of row 1 ([None] for an empty cell, else the
    [str] of the value). *)
Inductive header_row :=
  | RowRaises
  | RowScalar
  | RowCells (cells : list (option string)).

(** What [read_all_headers] reads from the sheet. *)
Record Sheet := {
  sh_used_range : bool;                   (* the sheet has [UsedRange] and row 1 is returned *)
  sh_columns : option Z;                  (* [header_row.Columns.Count]; [None]: it raises *)
  sh_row : header_row;
  sh_cell : Z → option (option string)    (* [header_row.Cells(1, i).Value]; [None]: it raises *)
}.

(** [str(val) if val is not None else f"Column {i}"] *)
Definition header_name (i : Z) (val : option string) : string :=
  default ("Column " +:+ pretty i) val.

(** Lines 70-73: [min(header_row.Columns.Count, 200)], 50 when the count
    cannot be read. *)
Definition columns_count (sh : Sheet) : Z :=
  match sh_columns sh with
  | Some n => Z.min n 200
  | None => 50
  end.

(** Lines 79-82: one step of [for col_idx, val in enumerate(cells, 1)]. *)
Definition read_batch (count : Z) (names : gmap Z string)
    (item : Z * option string) : gmap Z string :=
  if bool_decide (item.1 <= count) then <[item.1 := header_name item.1 item.2]> names
  else names.

(** Lines 85-91: one step of [for i in range(1, columns_count + 1)]. *)
Definition read_cell (sh : Sheet) (names : gmap Z string) (i : Z) : gmap Z string :=
  match sh_cell sh i with
  | Some val => <[i := header_name i val]> names
  | None => <[i := "Column " +:+ pretty i]> names
  end.

(** [read_all_headers] (lines 59-97): the cache is emptied and filled
    again, from the whole row at once or, when that read raises, cell by
    cell. *)
Definition read_all_headers (sh : Sheet) : gmap Z string :=
  if sh_used_range sh then
    match sh_row sh with
    | RowCells cells =>
        foldl (read_batch (columns_count sh)) ∅ (zip (seqZ 1 (Z.of_nat (length cells))) cells)
    | RowScalar => ∅
    | RowRaises => foldl (read_cell sh) ∅ (seqZ 1 (columns_count sh))
    end
  else ∅.

(** ** The table: [FilterVisualizer.create_filter_table] *)

(** Strings in the order in which Python sorts them, character by
    character. *)
Definition string_le (s1 s2 : string) : Prop := String.leb s1 s2 = true.

#[global] Instance string_le_dec : RelDecision string_le.
Proof. intros s1 s2. unfold string_le. apply _. Defined.

(** Lines 1082-1088: the names put into [column_set], event by event. *)
Definition touched (event : Event) : list string :=
  map column (added_filters event) ++ map column (removed_filters event).

(** Line 1091: [sorted(list(column_set))]. *)
Definition all_columns (filter_history : list Event) : list string :=
  merge_sort string_le (remove_dups (filter_history ≫= touched)).

(** Lines 1125-1139: the running map of active filters after one more
    event: its added filters are written, then its removed ones deleted. *)
Definition replay (active : gmap string (list string)) (event : Event)
    : gmap string (list string) :=
  foldl (λ a f, delete (column f) a)
    (foldl (λ a f, <[column f := values f]> a) active (added_filters event))
    (removed_filters event).

(** Lines 1102-1108: the name of the step in row [i]. *)
Definition table_step_name (i : nat) (event : Event) : string :=
  let filter_col :=
    match filter_column event with
    | String _ _ => filter_column event
    | EmptyString =>
        match added_filters event, removed_filters event with
        | first :: _, _ => column first
        | [], first :: _ => "Remove " +:+ column first
        | [], [] => ""
        end
    end in
  match filter_col with
  | String _ _ => filter_col
  | EmptyString => "Step " +:+ pretty (i + 1)%nat
  end.

(** Lines 1142-1147: the text of one cell. *)
Definition cell_text (active : gmap string (list string)) (col : string) : string :=
  match active !! col with
  | Some vals => String.concat ", " vals
  | None => ""
  end.

(** A value held by a row of the table: an [int], a string, or the text
    [f"{row_count / total * 100:.1f}%"], kept as the two numbers it is
    printed from. *)
Inductive field :=
  | Number (n : Z)
  | Text (s : string)
  | Percent (row_count total : Z).

(** Lines 1116-1122: the [row] dictionary as it is first made. *)
Definition new_row (i : nat) (event : Event) : gmap string field :=
  <["% of Total" := Percent (current_row_count event) (total_rows event)]>
    (<["Rows" := Number (current_row_count event)]>
       (<["Timestamp" := Text (timestamp event)]>
          (<["Step" := Text (table_step_name i event)]>
             (<["Index" := Number (Z.of_nat i)]> ∅)))).

(** Lines 1142-1147: one step of [for col in all_columns], which writes
    [row[col]]. *)
Definition fill_cell (active : gmap string (list string))
    (row : gmap string field) (col : string) : gmap string field :=
  <[col := Text (cell_text active col)]> row.

(** Lines 1100-1149: the rows for the events from position [i] on;
    [None] when the division by [total_rows] raises. *)
Fixpoint table_rows (columns : list string) (i : nat)
    (active : gmap string (list string)) (events : list Event)
    : option (list (gmap string field)) :=
  match events with
  | [] => Some []
  | event :: rest =>
      if bool_decide (total_rows event = 0) then None
      else
        let active' := replay active event in
        cons (foldl (fill_cell active') (new_row i event) columns)
          <$> table_rows columns (S i) active' rest
  end.

(** [[row[key] for row in data]], and for a filter column
    [row.get(col, "")]; every key asked for is in every row. *)
Definition column_values (key : string) (data : list (gmap string field)) : list field :=
  map (λ row, default (Text "") (row !! key)) data.

(** The table handed to the plotting library: the header and the cells,
    column by column. *)
Record TableFigure := {
  header_values : list string;
  cells_values : list (list field)
}.

Definition fixed_header : list string :=
  ["Step<br><i>(click to edit)</i>"; "Timestamp"; "Rows"; "% of Total"].

(** Lines 1152-1196. *)
Definition table_figure (all_columns : list string)
    (data : list (gmap string field)) : TableFigure :=
  {| header_values := fixed_header ++ all_columns;
     cells_values :=
       [column_values "Step" data; column_values "Timestamp" data;
        column_values "Rows" data; column_values "% of Total" data]
       ++ map (λ col, column_values col data) all_columns |}.

(** What [create_filter_table] gives: [None] for an empty log, an
    exception, or the figure. *)
Inductive TableResult :=
  | NoTable
  | TableRaises
  | Table (fig : TableFigure).

(** [create_filter_table] (lines 1068-1226).  [self.event_index_map],
    filled on the way, is read nowhere and is left out. *)
Definition create_filter_table (filter_history : list Event) : TableResult :=
  match filter_history with
  | [] => NoTable
  | _ =>
      match table_rows (all_columns filter_history) 0 ∅ filter_history with
      | Some data => Table (table_figure (all_columns filter_history) data)
      | None => TableRaises
      end
  end.

(** [save_full_report] (lines 1401-1418): both figures are made, the flow
    graph is written; [False] when anything raises.  [written] tells
    whether [pio.write_html] goes through. *)
Definition save_full_report (filter_history : list Event) (written : bool) : bool :=
  match create_filter_table filter_history with
  | TableRaises => false
  | _ => written
  end.

(** ** Renaming a column in the whole log, and the reset

    [FilterTrailApp.rename_filter_column] as defined last in the class
    (lines 2403-2458; the definition of lines 2288-2369 is replaced by
    it), and [FilterTrailApp.reset_data]. *)

Module Actions.

(** Lines 2428-2445: what the loop writes into one event. *)
Definition rename_all (original_name new_name : string) (event : Event) : Event :=
  {| timestamp := timestamp event; action := action event;
     added_filters := map (App.rename_entry original_name new_name) (added_filters event);
     removed_filters := map (App.rename_entry original_name new_name) (removed_filters event);
     previous_row_count := previous_row_count event;
     current_row_count := current_row_count event;
     total_rows := total_rows event;
     filter_column := App.rename original_name new_name (filter_column event);
     filter_columns := map (App.rename original_name new_name) (filter_columns event);
     active_filters := active_filters event |}.

(** The number of times the loop adds one to [modified_count] for one
    event. *)
Definition occurrences (original_name : string) (event : Event) : nat :=
  ((if decide (filter_column event = original_name) then 1 else 0)
   + length (filter (λ col, col = original_name) (filter_columns event))
   + length (filter (λ f, column f = original_name) (added_filters event))
   + length (filter (λ f, column f = original_name) (removed_filters event)))%nat.

(** One step of [for event in self.monitor.filter_history]. *)
Definition rename_at (original_name new_name : string)
    (acc : list Event * nat) (l : App.loc) : list Event * nat :=
  match acc.1 !! l with
  | Some event =>
      (<[l := rename_all original_name new_name event]> acc.1,
       (acc.2 + occurrences original_name event)%nat)
  | None => acc
  end.

(** [rename_filter_column]: the state after it and [modified_count];
    nothing is done when either name is empty. *)
Definition rename_filter_column (original_name new_name : string) (w : Writes)
    (st : App.State) : App.State * nat :=
  if bool_decide (original_name = "") || bool_decide (new_name = "") then (st, 0%nat)
  else
    let renamed := foldl (rename_at original_name new_name) (App.store st, 0%nat)
                     (App.monitor st) in
    (App.refresh_visualization
       {| App.store := renamed.1;
          App.visualizer := App.visualizer st;
          App.monitor := App.monitor st;
          App.headers := App.rename_headers original_name new_name (App.headers st);
          App.files :=
            save_filter_history (App.contents renamed.1 (App.monitor st)) w (App.files st) |},
     renamed.2).


End Actions.

(** ** Further sample inputs *)

Module Case.

(** A poll that finds the filter [Region = East] newly set, 40 rows
    showing. *)
Definition narrowing : Probe :=
  {| p_alive := true; p_reconnect := None; p_filters := [("Region", Sample.region)];
     p_direct := Some 40; p_special_cells := Some 40; p_sampling := Some 40;
     p_visible := Some 40; p_updated := Some 40;
     p_clock := "2024-05-01 10:00:05";
     p_autofilter := true; p_filter_on := λ i, bool_decide (i = 2);
     p_header_cell := λ _, CellText "Region"; p_write := Sample.ok |}.

(** The event that poll appends in the state [Sample.unfiltered]. *)
Definition narrowed : Event :=
  {| timestamp := "2024-05-01 10:00:05"; action := filter_change;
     added_filters := [{| column := "Region"; values := ["East"]; column_index := 2 |}];
     removed_filters := [];
     previous_row_count := 50; current_row_count := 40; total_rows := 100;
     filter_column := "Region"; filter_columns := ["Region"];
     active_filters := Some ["Region"] |}.

(** The loop on a sheet of 10000 rows with no filter on, 5000 counted. *)
Definition large : Loop :=
  {| monitor := {| filter_history := [connection_event "2024-05-01 10:00:00" 10000];
                   last_known_filters := []; header_names := ∅ |};
     disk := {| data_file := Missing; backup_file := Missing |};
     last_filter_state := [];
     last_row_count := 5000;
     loop_total_rows := 10000 |}.

(** The primary file cannot be written, the backup can. *)
Definition backup_only : Writes := {| primary_ok := false; backup_ok := true |}.

(** An event without a label of its own. *)
Definition unlabelled : Event :=
  {| timestamp := "2024-05-01 10:00:05"; action := filter_change;
     added_filters := [{| column := "Region"; values := ["East"]; column_index := 2 |}];
     removed_filters := [];
     previous_row_count := 50; current_row_count := 40; total_rows := 100;
     filter_column := ""; filter_columns := ["Region"];
     active_filters := Some ["Region"] |}.

(** The filter [Region = East] as a poll five seconds later reads it. *)
Definition region_later : FilterInfo :=
  {| fi_values := ["East"]; fi_column_index := 2; last_detected := 1714557605 |}.

(** A poll that finds the filter on Region as it was and [n] rows
    showing. *)
Definition untouched (n : Z) : Probe :=
  {| p_alive := true; p_reconnect := None; p_filters := [("Region", region_later)];
     p_direct := Some n; p_special_cells := Some n; p_sampling := Some n;
     p_visible := Some n; p_updated := Some n;
     p_clock := "2024-05-01 10:00:05";
     p_autofilter := true; p_filter_on := λ i, bool_decide (i = 2);
     p_header_cell := λ _, CellText "Region"; p_write := Sample.ok |}.

(** The event the poll [untouched 41] appends in the state
    [Sample.filtered]. *)
Definition recounted : Event :=
  {| timestamp := "2024-05-01 10:00:05"; action := filter_change;
     added_filters := []; removed_filters := [];
     previous_row_count := 40; current_row_count := 41; total_rows := 100;
     filter_column := "Filter Change"; filter_columns := ["Region"];
     active_filters := Some ["Region"] |}.

(** The loop as a session on [Sample.long_disk] starts it. *)
Definition resumed_long : Loop :=
  default Sample.unfiltered
    (start_session (Sample.boot 100) Sample.no_monitor Sample.long_disk).

(** The event the poll [narrowing] appends in that state. *)
Definition narrowed_long : Event :=
  {| timestamp := "2024-05-01 10:00:05"; action := filter_change;
     added_filters := [{| column := "Region"; values := ["East"]; column_index := 2 |}];
     removed_filters := [];
     previous_row_count := 100; current_row_count := 40; total_rows := 100;
     filter_column := "Region"; filter_columns := ["Region"];
     active_filters := Some ["Region"] |}.

(** The table of the log [Sample.two_steps]. *)
Definition table : TableFigure :=
  {| header_values :=
       ["Step<br><i>(click to edit)</i>"; "Timestamp"; "Rows"; "% of Total"; "Region"];
     cells_values :=
       [[Text "All Data"; Text "Region"];
        [Text "2024-05-01 10:00:00"; Text "2024-05-01 10:00:00"];
        [Number 100; Number 40];
        [Percent 100 100; Percent 40 100];
        [Text ""; Text "East"]] |}.

End Case.

(** * Facts *)

(** ** The reconciler *)

Section reconciler_facts.
Import Reconciler.

Lemma py_min_minimum x rest : is_minimum (py_min x rest) (x :: rest).
Proof.
  unfold py_min. induction rest as [|y rest [Hin Hall]]; simpl.
  - split; [by left | by repeat constructor].
  - split.
    + destruct (Z.min_spec y (foldr Z.min x rest)) as [[_ ->]|[_ ->]].
      * right; by left.
      * destruct Hin as [<-|Hin]; [by left | right; by right].
    + inversion_clear Hall as [|? ? Hx Hrest].
      constructor; [lia|]. constructor; [lia|].
      eapply Forall_impl; [exact Hrest|]. simpl; intros; lia.
Qed.

Lemma py_max_maximum x rest : is_maximum (py_max x rest) (x :: rest).
Proof.
  unfold py_max. induction rest as [|y rest [Hin Hall]]; simpl.
  - split; [by left | by repeat constructor].
  - split.
    + destruct (Z.max_spec y (foldr Z.max x rest)) as [[_ ->]|[_ ->]].
      * destruct Hin as [<-|Hin]; [by left | right; by right].
      * right; by left.
    + inversion_clear Hall as [|? ? Hx Hrest].
      constructor; [lia|]. constructor; [lia|].
      eapply Forall_impl; [exact Hrest|]. simpl; intros; lia.
Qed.

Lemma minimum_unique a b l : is_minimum a l → is_minimum b l → a = b.
Proof.
  intros [Ha Hla] [Hb Hlb]. rewrite Forall_forall in Hla, Hlb.
  apply list_elem_of_In in Ha, Hb.
  specialize (Hla _ Hb). specialize (Hlb _ Ha). lia.
Qed.

Lemma maximum_unique a b l : is_maximum a l → is_maximum b l → a = b.
Proof.
  intros [Ha Hla] [Hb Hlb]. rewrite Forall_forall in Hla, Hlb.
  apply list_elem_of_In in Ha, Hb.
  specialize (Hla _ Hb). specialize (Hlb _ Ha). lia.
Qed.

Lemma sort_sorted l : Sorted Z.le (sort l).
Proof. apply (Sorted_merge_sort Z.le). Qed.

Lemma sort_permutation l : sort l ≡ₚ l.
Proof. apply (merge_sort_Permutation Z.le). Qed.

Lemma sort_unique s l : Sorted Z.le s → s ≡ₚ l → s = sort l.
Proof.
  intros Hs Hp. apply (Sorted_unique Z.le); [done | apply sort_sorted |].
  by rewrite Hp, sort_permutation.
Qed.

Lemma filter_all {A} (P : A → Prop) `{∀ x, Decision (P x)} (l : list A) :
  Forall P l → filter P l = l.
Proof.
  induction 1 as [|x l Hx _ IH]; [done|].
  rewrite filter_cons_True by done. by rewrite IH.
Qed.

Lemma count_le_perm m l l' : l ≡ₚ l' → count_le m l = count_le m l'.
Proof. intros Hp. unfold count_le. by rewrite Hp. Qed.

Lemma count_ge_perm m l l' : l ≡ₚ l' → count_ge m l = count_ge m l'.
Proof. intros Hp. unfold count_ge. by rewrite Hp. Qed.

(** In a sorted list the element at position [k] has the [k + 1] first
    elements not above it and the elements from [k] on not below it. *)
Lemma sorted_position s k r :
  Sorted Z.le s → s !! k = Some r →
  (k + 1 <= count_le r s)%nat ∧ (length s - k <= count_ge r s)%nat.
Proof.
  intros Hs Hk. apply (Sorted_StronglySorted Z.le) in Hs.
  pose proof (lookup_lt_Some _ _ _ Hk) as Hlt.
  rewrite <- (take_drop_middle s k r Hk) in Hs.
  apply StronglySorted_app in Hs as (Hcross & _ & Htail).
  apply StronglySorted_cons in Htail as [Htail _].
  split.
  - unfold count_le. rewrite <- (take_drop_middle s k r Hk) at 1.
    rewrite filter_app, length_app, filter_cons_True by lia.
    rewrite filter_all.
    + rewrite length_take. simpl. lia.
    + apply Forall_forall. intros x Hx. apply (Hcross x r Hx). by left.
  - unfold count_ge. rewrite <- (take_drop_middle s k r Hk) at 2.
    rewrite filter_app, length_app, filter_cons_True by lia.
    simpl. rewrite (filter_all (λ y, r <= y) (drop (S k) s) Htail).
    rewrite length_drop. lia.
Qed.

Lemma sort_lookup_median l r :
  sort l !! (length l / 2)%nat = Some r → is_median r l.
Proof.
  intros Hr.
  pose proof (sort_permutation l) as Hp.
  destruct (sorted_position _ _ _ (sort_sorted l) Hr) as [Hle Hge].
  rewrite (count_le_perm _ _ _ Hp) in Hle. rewrite (count_ge_perm _ _ _ Hp) in Hge.
  rewrite Hp in Hge.
  split; [|split].
  - apply list_elem_of_In. rewrite <- Hp. by eapply list_elem_of_lookup_2.
  - pose proof (Nat.div_mod_eq (length l) 2). pose proof (Nat.mod_upper_bound (length l) 2). lia.
  - pose proof (Nat.div_mod_eq (length l) 2). pose proof (Nat.mod_upper_bound (length l) 2). lia.
Qed.

Lemma much_smaller_exact (a b : Z) :
  much_smaller a b = true ↔ (inject_Z a < 0.8 * inject_Z b)%Q.
Proof.
  unfold much_smaller. rewrite bool_decide_eq_true.
  unfold Qlt, Qmult, inject_Z; simpl. lia.
Qed.

Lemma reconcile_cases x rest :
  reconcile (x :: rest) =
    if bool_decide (3 <= length (x :: rest))%nat && much_smaller (py_min x rest) (py_max x rest)
    then sort (x :: rest) !! (length (x :: rest) / 2)%nat
    else Some (py_min x rest).
Proof.
  unfold reconcile. destruct (_ && _) eqn:E; [|done].
  rewrite nth_lookup.
  destruct (sort (x :: rest) !! _) eqn:El; [done|].
  apply lookup_ge_None in El.
  pose proof (sort_permutation (x :: rest)) as Hp. apply Permutation_length in Hp.
  rewrite Hp in El.
  pose proof (Nat.div_lt (length (x :: rest)) 2). simpl in *. lia.
Qed.

(** C1: for a non-empty estimate sequence the reconciler returns a value;
    with at least 3 estimates and the minimum strictly below 0.8 times the
    maximum that value is a median of the sequence (one of its elements,
    with at least half of the elements not above it and at least half not
    below it); otherwise it is the minimum, an element of the sequence. *)
Theorem reconcile_median_or_minimum (visible_rows : list Z) :
  visible_rows ≠ [] →
  ∃ r min_e max_e,
    reconcile visible_rows = Some r
    ∧ is_minimum min_e visible_rows ∧ is_maximum max_e visible_rows
    ∧ ((3 <= length visible_rows)%nat ∧ (inject_Z min_e < 0.8 * inject_Z max_e)%Q →
       is_median r visible_rows)
    ∧ (¬ ((3 <= length visible_rows)%nat ∧ (inject_Z min_e < 0.8 * inject_Z max_e)%Q) →
       r = min_e).
Proof.
  destruct visible_rows as [|x rest]; [done|]. intros _.
  pose proof (py_min_minimum x rest) as Hmin.
  pose proof (py_max_maximum x rest) as Hmax.
  rewrite reconcile_cases.
  destruct (bool_decide _ && _) eqn:E.
  - apply andb_true_iff in E as [E1 E2].
    apply bool_decide_eq_true in E1. apply much_smaller_exact in E2.
    destruct (sort (x :: rest) !! _) as [r|] eqn:El.
    + exists r, (py_min x rest), (py_max x rest).
      split_and!; [done | done | done | | tauto].
      intros _. by apply sort_lookup_median.
    + apply lookup_ge_None in El.
      pose proof (sort_permutation (x :: rest)) as Hp. apply Permutation_length in Hp.
      rewrite Hp in El.
      pose proof (Nat.div_lt (length (x :: rest)) 2). simpl in *. lia.
  - exists (py_min x rest), (py_min x rest), (py_max x rest).
    split_and!; [done | done | done | | done].
    intros [H3 Hq]. apply much_smaller_exact in Hq.
    apply andb_false_iff in E as [E|E]; [|congruence].
    by apply bool_decide_eq_false in E.
Qed.

(** C10: in the median branch the reconciler returns the element at index
    floor(n/2) of the ascending-sorted sequence, whichever way the sorted
    sequence was obtained: the middle element for odd n, the upper of the
    two middle elements for even n. *)
Theorem median_branch_index (visible_rows s : list Z) (min_e max_e : Z) :
  (3 <= length visible_rows)%nat →
  is_minimum min_e visible_rows → is_maximum max_e visible_rows →
  (inject_Z min_e < 0.8 * inject_Z max_e)%Q →
  Sorted Z.le s → s ≡ₚ visible_rows →
  reconcile visible_rows = s !! (length visible_rows / 2)%nat
  ∧ is_Some (s !! (length visible_rows / 2)%nat).
Proof.
  intros H3 Hmin Hmax Hq Hs Hp.
  destruct visible_rows as [|x rest]; [simpl in H3; lia|].
  rewrite (minimum_unique _ _ _ Hmin (py_min_minimum x rest)) in Hq.
  rewrite (maximum_unique _ _ _ Hmax (py_max_maximum x rest)) in Hq.
  apply much_smaller_exact in Hq.
  rewrite (sort_unique s (x :: rest) Hs Hp).
  rewrite reconcile_cases, Hq, bool_decide_eq_true_2 by done. simpl andb. cbv iota.
  split; [done|].
  apply lookup_lt_is_Some.
  pose proof (sort_permutation (x :: rest)) as Hp'. apply Permutation_length in Hp'.
  rewrite Hp'. apply Nat.div_lt; simpl; lia.
Qed.

Lemma median_branch_index_witness :
  (3 <= length [10; 60; 50; 52])%nat
  ∧ is_minimum 10 [10; 60; 50; 52] ∧ is_maximum 60 [10; 60; 50; 52]
  ∧ (inject_Z 10 < 0.8 * inject_Z 60)%Q
  ∧ Sorted Z.le [10; 50; 52; 60] ∧ [10; 50; 52; 60] ≡ₚ [10; 60; 50; 52]
  ∧ reconcile [10; 60; 50; 52] = [10; 50; 52; 60] !! (length [10; 60; 50; 52] / 2)%nat
  ∧ is_Some ([10; 50; 52; 60] !! (length [10; 60; 50; 52] / 2)%nat).
Proof.
  assert (H3 : (3 <= length [10; 60; 50; 52])%nat) by (simpl; lia).
  assert (Hmin : is_minimum 10 [10; 60; 50; 52]).
  { split; [simpl; tauto | repeat constructor; lia]. }
  assert (Hmax : is_maximum 60 [10; 60; 50; 52]).
  { split; [simpl; tauto | repeat constructor; lia]. }
  assert (Hq : (inject_Z 10 < 0.8 * inject_Z 60)%Q) by reflexivity.
  assert (Hs : Sorted Z.le [10; 50; 52; 60]) by (repeat constructor; lia).
  assert (Hp : [10; 50; 52; 60] ≡ₚ [10; 60; 50; 52]).
  { apply Permutation_skip. etransitivity; [|apply Permutation_swap].
    apply Permutation_skip. apply Permutation_swap. }
  split; [exact H3|]. split; [exact Hmin|]. split; [exact Hmax|].
  split; [exact Hq|]. split; [exact Hs|]. split; [exact Hp|].
  exact (median_branch_index [10; 60; 50; 52] [10; 50; 52; 60] 10 60 H3 Hmin Hmax Hq Hs Hp).
Defined.

Lemma reconcile_median_or_minimum_witness :
  [10; 50; 52] ≠ [] ∧
  ∃ r min_e max_e,
    reconcile [10; 50; 52] = Some r
    ∧ is_minimum min_e [10; 50; 52] ∧ is_maximum max_e [10; 50; 52]
    ∧ ((3 <= length [10; 50; 52])%nat ∧ (inject_Z min_e < 0.8 * inject_Z max_e)%Q →
       is_median r [10; 50; 52])
    ∧ (¬ ((3 <= length [10; 50; 52])%nat ∧ (inject_Z min_e < 0.8 * inject_Z max_e)%Q) →
       r = min_e).
Proof. split; [done | apply (reconcile_median_or_minimum [10; 50; 52]); done]. Defined.
End reconciler_facts.

Example reconcile_low_disagreement :
  Reconciler.reconcile [40; 42; 41] = Some 40.
Proof. reflexivity. Qed.

Example reconcile_high_disagreement :
  Reconciler.reconcile [10; 50; 52] = Some 50.
Proof. reflexivity. Qed.

Example reconcile_four_estimates :
  Reconciler.reconcile [10; 60; 50; 52] = Some 52.
Proof. reflexivity. Qed.

(** ** Dictionaries *)

Section dict_facts.
Context {V : Type} `{EqDecision V}.
Implicit Types d : Dict.t V.

Lemma get_elem_of d k v : Dict.get d k = Some v → (k, v) ∈ d.
Proof.
  induction d as [|[k' v'] d IH]; [done|]. cbn. case_decide as Hk.
  - intros [= ->]. subst. by left.
  - intros Hg. right. by apply IH.
Qed.

Lemma get_None d k : Dict.get d k = None ↔ k ∉ Dict.keys d.
Proof.
  unfold Dict.keys. induction d as [|[k' v'] d IH]; cbn.
  - split; [intros _; apply not_elem_of_nil | done].
  - rewrite not_elem_of_cons. case_decide as Hk.
    + split; [done | intros [Hne _]; by subst].
    + rewrite IH. split; [by intros ? | by intros [_ ?]].
Qed.

Lemma elem_of_get d k v : Dict.wf d → (k, v) ∈ d → Dict.get d k = Some v.
Proof.
  unfold Dict.wf, Dict.keys. induction d as [|[k' v'] d IH]; cbn; intros Hwf Hin.
  - by apply elem_of_nil in Hin.
  - apply NoDup_cons in Hwf as [Hk' Hwf]. apply elem_of_cons in Hin as [[= -> ->]|Hin].
    + by rewrite decide_True.
    + rewrite decide_False; [by apply IH|].
      intros ->. apply Hk'. apply list_elem_of_fmap. by exists (k, v).
Qed.

(** [==] on dictionaries is equality of maps: the same keys with the
    same values, in whatever order they were inserted. *)
Lemma eqb_true_iff d1 d2 :
  Dict.wf d1 → Dict.wf d2 →
  Dict.eqb d1 d2 = true ↔ ∀ k, Dict.get d1 k = Dict.get d2 k.
Proof.
  intros Hwf1 Hwf2. unfold Dict.eqb.
  rewrite andb_true_iff, bool_decide_eq_true, forallb_forall.
  split.
  - intros [Hlen Hall] k.
    assert (Hsub : ∀ k v, Dict.get d1 k = Some v → Dict.get d2 k = Some v).
    { intros k' v Hg. apply get_elem_of, list_elem_of_In in Hg.
      specialize (Hall _ Hg). by apply bool_decide_eq_true in Hall. }
    destruct (Dict.get d1 k) as [v|] eqn:E1; [symmetry; by apply Hsub|].
    destruct (Dict.get d2 k) as [v2|] eqn:E2; [|done]. exfalso.
    apply get_None in E1. apply E1.
    assert (Hperm : Dict.keys d1 ≡ₚ Dict.keys d2).
    { apply submseteq_length_Permutation.
      - apply NoDup_submseteq; [done|]. intros x Hx.
        destruct (Dict.get d1 x) as [v|] eqn:Ex.
        + apply Hsub in Ex. destruct (decide (x ∈ Dict.keys d2)); [done|].
          apply get_None in n. congruence.
        + by apply get_None in Ex.
      - unfold Dict.keys. rewrite !length_fmap. lia. }
    rewrite Hperm. destruct (decide (k ∈ Dict.keys d2)) as [|Hn]; [done|].
    apply get_None in Hn. congruence.
  - intros Hget. split.
    + assert (Hperm : Dict.keys d1 ≡ₚ Dict.keys d2).
      { apply NoDup_Permutation; [done | done |]. intros k.
        split; intros Hk.
        - destruct (decide (k ∈ Dict.keys d2)) as [|Hn]; [done|].
          apply get_None in Hn. rewrite <- Hget in Hn. by apply get_None in Hn.
        - destruct (decide (k ∈ Dict.keys d1)) as [|Hn]; [done|].
          apply get_None in Hn. rewrite Hget in Hn. by apply get_None in Hn. }
      apply Permutation_length in Hperm. unfold Dict.keys in Hperm.
      by rewrite !length_fmap in Hperm.
    + intros [k v] Hin. apply bool_decide_eq_true. cbn. rewrite <- Hget.
      apply elem_of_get; [done | by apply list_elem_of_In].
Qed.

Lemma eqb_refl d : Dict.wf d → Dict.eqb d d = true.
Proof. intros Hwf. by apply eqb_true_iff. Qed.
End dict_facts.

(** ** One poll *)

Lemma app_singleton_neq {A} (l : list A) (x : A) : l ++ [x] ≠ l.
Proof.
  intros H. apply (f_equal length) in H. rewrite length_app in H. simpl in H. lia.
Qed.

Lemma record_change_history p s polled rcc fsc :
  filter_history (monitor (record_change p s polled rcc fsc)) =
    if significant s (ch_event (describe_change p s polled rcc fsc))
    then filter_history (monitor s) ++ [ch_event (describe_change p s polled rcc fsc)]
    else filter_history (monitor s).
Proof. reflexivity. Qed.

Lemma record_change_total p s polled rcc fsc :
  loop_total_rows (record_change p s polled rcc fsc) = loop_total_rows s.
Proof. reflexivity. Qed.

Lemma describe_change_total p s polled rcc fsc :
  total_rows (ch_event (describe_change p s polled rcc fsc)) = loop_total_rows s.
Proof. reflexivity. Qed.

Lemma describe_change_label p s polled rcc fsc :
  filter_column (ch_event (describe_change p s polled rcc fsc)) =
    display_filter_column
      (added_filters (ch_event (describe_change p s polled rcc fsc)))
      (removed_filters (ch_event (describe_change p s polled rcc fsc)))
      rcc fsc (p_filters p).
Proof. reflexivity. Qed.

#[local] Opaque record_change describe_change significant.

(** The four ways a poll can end: the connection is lost; the row count
    cannot be taken; nothing changed; a change is recorded. *)
Lemma tick_cases p s :
  (p_alive p = false ∧
     filter_history (monitor (tick p s)) = filter_history (monitor s)
     ∧ disk (tick p s) = disk s ∧ loop_total_rows (tick p s) = loop_total_rows s)
  ∨ (p_alive p = true ∧ poll_row_count p = None ∧ tick p s = s)
  ∨ (∃ c, p_alive p = true ∧ poll_row_count p = Some c
       ∧ negb (Dict.eqb (p_filters p) (last_filter_state s))
          || jitter c (last_row_count s) = false
       ∧ tick p s = s)
  ∨ (∃ c, p_alive p = true ∧ poll_row_count p = Some c
       ∧ negb (Dict.eqb (p_filters p) (last_filter_state s))
          || jitter c (last_row_count s) = true
       ∧ tick p s = record_change p s c (jitter c (last_row_count s))
                      (negb (Dict.eqb (p_filters p) (last_filter_state s)))).
Proof.
  unfold tick. destruct (p_alive p) eqn:Ea; cbn [negb].
  - destruct (poll_row_count p) as [c|] eqn:Ec.
    + destruct (negb _ || _) eqn:Eb.
      * do 3 right. by exists c.
      * right; right; left. by exists c.
    + right; left. done.
  - left. destruct (p_reconnect p); done.
Qed.

(** A poll leaves the log as it was or appends one event, which carries
    the [total_rows] of the session. *)
Lemma tick_history p s :
  loop_total_rows (tick p s) = loop_total_rows s
  ∧ (filter_history (monitor (tick p s)) = filter_history (monitor s)
     ∨ ∃ e, filter_history (monitor (tick p s)) = filter_history (monitor s) ++ [e]
            ∧ total_rows e = loop_total_rows s).
Proof.
  destruct (tick_cases p s)
    as [(_ & H & _ & Ht)|[(_ & _ & ->)|[(c & _ & _ & _ & ->)|(c & _ & _ & _ & ->)]]].
  - split; [done | by left].
  - split; [done | by left].
  - split; [done | by left].
  - split; [apply record_change_total|].
    rewrite record_change_history. destruct (significant _ _); [right | by left].
    eexists; split; [reflexivity | apply describe_change_total].
Qed.

Lemma tick_appended p s e :
  filter_history (monitor (tick p s)) = filter_history (monitor s) ++ [e] →
  ∃ c, p_alive p = true ∧ poll_row_count p = Some c
    ∧ e = ch_event (describe_change p s c (jitter c (last_row_count s))
                      (negb (Dict.eqb (p_filters p) (last_filter_state s)))).
Proof.
  destruct (tick_cases p s)
    as [(_ & H & _ & Ht)|[(_ & _ & ->)|[(c & _ & _ & _ & ->)|(c & Ha & Hc & _ & ->)]]].
  - rewrite H. intros E. symmetry in E. by apply app_singleton_neq in E.
  - intros E. symmetry in E. by apply app_singleton_neq in E.
  - intros E. symmetry in E. by apply app_singleton_neq in E.
  - rewrite record_change_history. destruct (significant _ _).
    + intros E. apply app_inv_head in E. injection E as <-. by exists c.
    + intros E. symmetry in E. by apply app_singleton_neq in E.
Qed.

Lemma display_filter_column_cases added removed rcc fsc (current : Dict.t FilterInfo) :
  if bool_decide (current = []) && rcc
  then display_filter_column added removed rcc fsc current = "No Filters"
  else match added, removed with
       | first :: _, _ => display_filter_column added removed rcc fsc current = column first
       | [], first :: _ =>
           display_filter_column added removed rcc fsc current = "Remove " +:+ column first
       | [], [] =>
           display_filter_column added removed rcc fsc current =
             if rcc && negb fsc then "Row Count Change" else "Filter Change"
       end.
Proof.
  unfold display_filter_column.
  destruct (bool_decide (current = []) && rcc); [reflexivity|].
  destruct added, removed; reflexivity.
Qed.

(** C2, as the code has it: when no method gives a positive value the
    row count of the poll is what a further [get_visible_row_count()]
    returns, whatever the previous count was; the poll is given up, and
    the state kept, only when that call raises. *)
Theorem no_estimate_row_count (p : Probe) (s : Loop) :
  Reconciler.collect_visible_rows (p_direct p) (p_special_cells p) (p_sampling p) = [] →
  poll_row_count p = p_visible p
  ∧ (p_alive p = true → p_visible p = None → tick p s = s).
Proof.
  intros He.
  assert (Hp : poll_row_count p = p_visible p).
  { unfold poll_row_count. rewrite He. reflexivity. }
  split; [done|]. intros Ha Hv.
  destruct (tick_cases p s)
    as [(Ha' & _)|[(_ & _ & ->)|[(c & _ & Hc & _)|(c & _ & Hc & _)]]];
    congruence.
Qed.

Lemma no_estimate_row_count_witness :
  Reconciler.collect_visible_rows (p_direct Sample.blind) (p_special_cells Sample.blind)
    (p_sampling Sample.blind) = []
  ∧ poll_row_count Sample.blind = p_visible Sample.blind
  ∧ (p_alive Sample.blind = true → p_visible Sample.blind = None →
     tick Sample.blind Sample.unfiltered = Sample.unfiltered).
Proof.
  split; [reflexivity|].
  apply (no_estimate_row_count Sample.blind Sample.unfiltered). reflexivity.
Defined.

(** C2 as stated fails: with 50 rows counted before and no estimate now,
    the poll counts 0 rows, not 50. *)
Lemma carry_forward_fails : ¬ Stated.carried_forward Sample.blind Sample.unfiltered.
Proof. intros H. specialize (H eq_refl). vm_compute in H. discriminate H. Qed.

(** The first capture of a session: without estimates the count is the
    [total_rows] of the session. *)
Lemma first_capture_without_estimates b m d s :
  Reconciler.collect_visible_rows (b_direct b) (b_special_cells b) (b_sampling b) = [] →
  start_session b m d = Some s →
  last_row_count s = loop_total_rows s.
Proof.
  intros He. unfold start_session. destruct (b_connect b); [|done].
  intros [= <-]. cbn. by rewrite He.
Qed.

(** C3, as the code has it: the label of an appended event is "No Filters"
    whenever no filter is left and the row count changed; otherwise it is
    the column of the first added filter, else "Remove " and the column of
    the first removed filter; else, nothing being added or removed, it is
    "Filter Change" when the row count did not change, and "Row Count
    Change" when it changed and the comparison of line 392 found the map
    as it was.  What the label is when the row count changed and that
    comparison found a difference without any filter added or removed is
    not said here. *)
Theorem appended_label (p : Probe) (s : Loop) (e : Event) :
  filter_history (monitor (tick p s)) = filter_history (monitor s) ++ [e] →
  ∃ c, poll_row_count p = Some c ∧
    let row_count_changed := bool_decide (2 < Z.abs (c - last_row_count s)) in
    if bool_decide (p_filters p = []) && row_count_changed
    then filter_column e = "No Filters"
    else match added_filters e, removed_filters e with
         | first :: _, _ => filter_column e = column first
         | [], first :: _ => filter_column e = "Remove " +:+ column first
         | [], [] =>
             (row_count_changed = false → filter_column e = "Filter Change")
             ∧ (row_count_changed = true →
                Dict.eqb (p_filters p) (last_filter_state s) = true →
                filter_column e = "Row Count Change")
         end.
Proof.
  intros H. apply tick_appended in H as (c & _ & Hc & ->).
  exists c. split; [done|]. cbv zeta.
  rewrite describe_change_label.
  pose proof (display_filter_column_cases
                (added_filters (ch_event (describe_change p s c (jitter c (last_row_count s))
                   (negb (Dict.eqb (p_filters p) (last_filter_state s))))))
                (removed_filters (ch_event (describe_change p s c (jitter c (last_row_count s))
                   (negb (Dict.eqb (p_filters p) (last_filter_state s))))))
                (jitter c (last_row_count s))
                (negb (Dict.eqb (p_filters p) (last_filter_state s))) (p_filters p)) as Hl.
  unfold jitter in *.
  destruct (bool_decide (p_filters p = []) && _); [done|].
  destruct (added_filters _) as [|f added]; [|done].
  destruct (removed_filters _) as [|g removed]; [|done].
  rewrite Hl. split.
  - by intros ->.
  - by intros -> ->.
Qed.

Lemma appended_label_witness :
  filter_history (monitor (tick Case.narrowing Sample.unfiltered))
    = filter_history (monitor Sample.unfiltered) ++ [Case.narrowed]
  ∧ ∃ c, poll_row_count Case.narrowing = Some c ∧
      let row_count_changed :=
        bool_decide (2 < Z.abs (c - last_row_count Sample.unfiltered)) in
      if bool_decide (p_filters Case.narrowing = []) && row_count_changed
      then filter_column Case.narrowed = "No Filters"
      else match added_filters Case.narrowed, removed_filters Case.narrowed with
           | first :: _, _ => filter_column Case.narrowed = column first
           | [], first :: _ => filter_column Case.narrowed = "Remove " +:+ column first
           | [], [] =>
               (row_count_changed = false → filter_column Case.narrowed = "Filter Change")
               ∧ (row_count_changed = true →
                  Dict.eqb (p_filters Case.narrowing) (last_filter_state Sample.unfiltered)
                    = true →
                  filter_column Case.narrowed = "Row Count Change")
           end.
Proof.
  assert (H : filter_history (monitor (tick Case.narrowing Sample.unfiltered))
              = filter_history (monitor Sample.unfiltered) ++ [Case.narrowed])
    by (vm_compute; reflexivity).
  split; [exact H|].
  exact (appended_label Case.narrowing Sample.unfiltered Case.narrowed H).
Defined.

(** The other branches, on the removal of the last filter and on a poll
    that reads the very map of the poll before it. *)
Example label_no_filters :
  filter_column <$> last (filter_history (monitor (tick (Sample.quiet 100) Sample.filtered)))
    = Some "No Filters".
Proof. vm_compute. reflexivity. Qed.

Example label_row_count_change :
  let same_map : Probe :=
    {| p_alive := true; p_reconnect := None; p_filters := [("Region", Sample.region)];
       p_direct := Some 30; p_special_cells := Some 30; p_sampling := Some 30;
       p_visible := Some 30; p_updated := Some 30;
       p_clock := "2024-05-01 10:00:05";
       p_autofilter := true; p_filter_on := λ i, bool_decide (i = 2);
       p_header_cell := λ _, CellText "Region"; p_write := Sample.ok |} in
  filter_column <$> last (filter_history (monitor (tick same_map Sample.filtered)))
    = Some "Row Count Change".
Proof. vm_compute. reflexivity. Qed.

(** C3 as stated fails: the last filter, on Region, is removed and the
    rows go from 40 to 100; the priority order gives "Remove Region", the
    event is labelled "No Filters". *)
Lemma priority_label_fails : ¬ Stated.priority_label (Sample.quiet 100) Sample.filtered.
Proof.
  intros H. specialize (H Sample.cleared 100).
  assert (E : filter_column Sample.cleared = "Remove Region").
  { etransitivity; [apply H; vm_compute; reflexivity | vm_compute; reflexivity]. }
  discriminate E.
Qed.

(** When the comparison of line 392 finds the filter map of a poll equal
    to the previous one, the detection times included, and the row count
    differs from the previous one by at most 2, nothing is appended to
    the log and the files are not written. *)
Lemma identical_maps_small_jitter_no_event (p : Probe) (s : Loop) :
  Dict.eqb (p_filters p) (last_filter_state s) = true →
  (∀ c, poll_row_count p = Some c → Z.abs (c - last_row_count s) <= 2) →
  filter_history (monitor (tick p s)) = filter_history (monitor s)
  ∧ disk (tick p s) = disk s.
Proof.
  intros Heq Hj.
  destruct (tick_cases p s)
    as [(_ & H & Hd & _)|[(_ & _ & ->)|[(c & _ & _ & _ & ->)|(c & _ & Hc & Hb & _)]]];
    try done.
  specialize (Hj c Hc). rewrite Heq in Hb. unfold jitter in Hb.
  rewrite bool_decide_eq_false_2 in Hb by lia. done.
Qed.

(** C4 fails in the code: the filter on Region is as it was, read five
    seconds later, and 41 rows show where 40 did, of 100.  The maps have
    the same columns and values and the counts differ by 1, yet the poll
    appends an event, labelled "Filter Change": the comparison of line 392
    also looks at [last_detected], which line 894 sets anew at every
    read, and 1 row is more than a thousandth of 100. *)
Theorem untouched_filter_is_logged :
  Stated.same_filters (last_filter_state Sample.filtered) (p_filters (Case.untouched 41))
  ∧ poll_row_count (Case.untouched 41) = Some 41
  ∧ Z.abs (41 - last_row_count Sample.filtered) <= 2
  ∧ filter_history (monitor (tick (Case.untouched 41) Sample.filtered))
    = filter_history (monitor Sample.filtered) ++ [Case.recounted]
  ∧ ¬ Stated.no_event (Case.untouched 41) Sample.filtered.
Proof.
  assert (Hsame : Stated.same_filters (last_filter_state Sample.filtered)
                    (p_filters (Case.untouched 41))).
  { intros col. cbn. by case_decide. }
  assert (Hlog : filter_history (monitor (tick (Case.untouched 41) Sample.filtered))
                 = filter_history (monitor Sample.filtered) ++ [Case.recounted])
    by (vm_compute; reflexivity).
  split; [exact Hsame|]. split; [reflexivity|]. split; [cbn; lia|]. split; [exact Hlog|].
  intros H.
  assert (E : filter_history (monitor (tick (Case.untouched 41) Sample.filtered))
              = filter_history (monitor Sample.filtered)).
  { apply H; [exact Hsame|]. intros c Hc. vm_compute in Hc. injection Hc as <-. cbn. lia. }
  rewrite Hlog in E. by apply app_singleton_neq in E.
Qed.


(** ** A session *)

Lemma run_cons p probes s : run (p :: probes) s = run probes (tick p s).
Proof. reflexivity. Qed.

Lemma run_history probes s :
  loop_total_rows (run probes s) = loop_total_rows s
  ∧ ∃ appended,
      filter_history (monitor (run probes s)) = filter_history (monitor s) ++ appended
      ∧ Forall (λ e, total_rows e = loop_total_rows s) appended.
Proof.
  revert s. induction probes as [|p probes IH]; intros s.
  - split; [done|]. exists []. by rewrite app_nil_r.
  - rewrite run_cons. destruct (IH (tick p s)) as (Ht & app & Happ & Hall).
    destruct (tick_history p s) as (Ht' & [Hsame|(e & He & Hte)]).
    + rewrite Ht, Ht'. split; [done|]. exists app. rewrite Happ, Hsame.
      split; [done|]. by rewrite <- Ht'.
    + rewrite Ht, Ht'. split; [done|]. exists (e :: app). rewrite Happ, He, <- app_assoc.
      split; [done|]. constructor; [done|]. by rewrite <- Ht'.
Qed.

Lemma start_session_history b m d s :
  start_session b m d = Some s →
  loop_total_rows s = session_total b (load_history d (filter_history m))
  ∧ ∃ appended,
      filter_history (monitor s) = load_history d (filter_history m) ++ appended
      ∧ Forall (λ e, total_rows e = loop_total_rows s) appended.
Proof.
  unfold start_session. destruct (b_connect b) as [headers|]; [|done].
  intros [= <-]. cbn [loop_total_rows filter_history monitor].
  split; [done|].
  set (loaded := load_history d (filter_history m)).
  destruct (negb (bool_decide (0 < original_total_rows loaded) && _));
    destruct (negb (bool_decide (b_filters b = [])) && _).
  - eexists [_; _]. rewrite <- app_assoc. split; [reflexivity|]. by repeat constructor.
  - eexists [_]. split; [reflexivity|]. by repeat constructor.
  - eexists [_]. split; [reflexivity|]. by repeat constructor.
  - exists []. by rewrite app_nil_r.
Qed.

Lemma session_history b m d probes s :
  start_session b m d = Some s →
  ∃ appended,
    filter_history (monitor (run probes s)) = load_history d (filter_history m) ++ appended
    ∧ Forall (λ e, total_rows e = session_total b (load_history d (filter_history m)))
        appended.
Proof.
  intros Hs. destruct (start_session_history _ _ _ _ Hs) as (Ht & app0 & H0 & Hall0).
  destruct (run_history probes s) as (_ & app1 & H1 & Hall1).
  exists (app0 ++ app1). rewrite H1, H0, <- app_assoc. split; [done|].
  rewrite <- Ht. by apply Forall_app.
Qed.

Lemma original_total_rows_first log i e :
  settled log → log !! i = Some e → 0 < total_rows e →
  original_total_rows log = total_rows e.
Proof.
  intros Hlog Hi Hpos. unfold original_total_rows.
  destruct (list_find _ log) as [[f ef]|] eqn:Ef.
  - apply list_find_Some in Ef as (Hf & Hfpos & Hbefore).
    destruct (decide (f <= i)%nat) as [Hle|Hgt].
    + symmetry. by apply (Hlog f i).
    + exfalso. apply (Hbefore i e); [done | lia | done].
  - apply list_find_None in Ef. rewrite Forall_forall in Ef.
    exfalso. apply (Ef e); [by eapply list_elem_of_lookup_2 | done].
Qed.

Lemma settled_app log appended T :
  settled log → Forall (λ e, total_rows e = T) appended →
  (0 < original_total_rows log → T = original_total_rows log) →
  settled (log ++ appended).
Proof.
  intros Hlog Hall HT i j ei ej Hi Hj Hij Hpos.
  rewrite Forall_forall in Hall.
  destruct (decide (j < length log)%nat) as [Hjl|Hjl].
  - rewrite lookup_app_l in Hi, Hj by lia. by apply (Hlog i j).
  - rewrite lookup_app_r in Hj by lia.
    assert (total_rows ej = T) as -> by (apply Hall; by eapply list_elem_of_lookup_2).
    destruct (decide (i < length log)%nat) as [Hil|Hil].
    + rewrite lookup_app_l in Hi by lia.
      pose proof (original_total_rows_first _ _ _ Hlog Hi Hpos) as Ho.
      rewrite <- Ho. apply HT. lia.
    + rewrite lookup_app_r in Hi by lia. symmetry. apply Hall. by eapply list_elem_of_lookup_2.
Qed.

Lemma settled_nil : settled [].
Proof. by intros i j ei ej Hi. Qed.

Lemma settled_drop n log : settled log → settled (drop n log).
Proof.
  intros Hlog i j ei ej Hi Hj Hij. rewrite lookup_drop in Hi, Hj.
  apply (Hlog (n + i)%nat (n + j)%nat); [done | done | lia].
Qed.

(** C6, as the code has it: in the log a session loads, let every event
    from the first one with a positive [total_rows] on carry that value;
    then the same holds of the log at any later moment of the session, and
    the session only appends, each appended event carrying the value the
    loaded log established, or the count taken at the start of the session
    when the loaded log has no positive value. *)
Theorem total_rows_settled (b : Boot) (m : Monitor) (d : Disk) (probes : list Probe)
    (s : Loop) :
  start_session b m d = Some s →
  settled (load_history d (filter_history m)) →
  settled (filter_history (monitor (run probes s)))
  ∧ ∃ appended,
      filter_history (monitor (run probes s)) = load_history d (filter_history m) ++ appended
      ∧ ∀ e, e ∈ appended →
          total_rows e =
            if bool_decide (0 < original_total_rows (load_history d (filter_history m)))
            then original_total_rows (load_history d (filter_history m))
            else b_total_rows b.
Proof.
  intros Hs Hlog. destruct (session_history _ _ _ probes _ Hs) as (app & Happ & Hall).
  split.
  - rewrite Happ. eapply settled_app; [done | done |].
    intros Hpos. unfold session_total. by rewrite bool_decide_eq_true_2.
  - exists app. split; [done|]. by apply Forall_forall.
Qed.

Lemma resumed_started :
  start_session (Sample.boot 100) Sample.no_monitor Sample.short_disk = Some Sample.resumed.
Proof. vm_compute. reflexivity. Qed.

Lemma two_steps_settled :
  settled (load_history Sample.short_disk (filter_history Sample.no_monitor)).
Proof.
  change (settled Sample.two_steps).
  intros [|[|i]] [|[|j]] ei ej Hi Hj Hij Hpos; simplify_eq/=; try done; lia.
Qed.

Lemma total_rows_settled_witness :
  start_session (Sample.boot 100) Sample.no_monitor Sample.short_disk = Some Sample.resumed
  ∧ settled (load_history Sample.short_disk (filter_history Sample.no_monitor))
  ∧ settled (filter_history (monitor (run [Sample.quiet 100] Sample.resumed)))
  ∧ ∃ appended,
      filter_history (monitor (run [Sample.quiet 100] Sample.resumed))
        = load_history Sample.short_disk (filter_history Sample.no_monitor) ++ appended
      ∧ ∀ e, e ∈ appended →
          total_rows e =
            if bool_decide
                 (0 < original_total_rows
                        (load_history Sample.short_disk (filter_history Sample.no_monitor)))
            then original_total_rows
                   (load_history Sample.short_disk (filter_history Sample.no_monitor))
            else b_total_rows (Sample.boot 100).
Proof.
  split; [exact resumed_started|]. split; [exact two_steps_settled|].
  exact (total_rows_settled (Sample.boot 100) Sample.no_monitor Sample.short_disk
           [Sample.quiet 100] Sample.resumed resumed_started two_steps_settled).
Defined.

(** C6 as stated fails: a session started on an empty sheet logs an event
    with [total_rows] 0, the next session, on 100 rows, one with 100. *)
Lemma one_total_fails : ¬ Stated.one_total (filter_history Sample.second_session.1).
Proof.
  intros H.
  assert (E : total_rows (connection_event "2024-05-01 10:00:00" 0)
              = total_rows (connection_event "2024-05-01 10:00:00" 100)).
  { apply H; vm_compute; [left | right; left]. }
  discriminate E.
Qed.

(** ** Loading and saving *)

Lemma load_history_holds d current l :
  data_file d = Holds l →
  load_history d current = drop (length l - max_history_length) l.
Proof.
  intros Hd. unfold load_history. rewrite Hd. cbn.
  case_bool_decide as Hlen; [done|].
  replace (length l - max_history_length)%nat with 0%nat by lia. done.
Qed.

(** C5, as the code has it: a primary file that can be read is what is
    loaded (the monitor keeping its last 100 events); the backup is read
    only when the primary exists, is not empty and cannot be read, and
    then the result is the backup's events, or none when the backup is
    missing or unreadable; when the primary is missing or empty the backup
    is not consulted: the visualizer gets no events and the monitor keeps
    the list it has in memory. *)
Theorem load_falls_back_on_read_failure (d : Disk) (current : list Event) :
  (∀ l, data_file d = Holds l →
     load_filter_history d = l
     ∧ load_history d current = drop (length l - 100) l)
  ∧ (data_file d = Garbage →
     load_filter_history d = default [] (json_load (backup_file d))
     ∧ load_history d current = default [] (json_load (backup_file d)))
  ∧ (data_file d = Missing ∨ data_file d = Blank →
     load_filter_history d = [] ∧ load_history d current = current).
Proof.
  split_and!.
  - intros l Hd. split; [|by apply load_history_holds].
    unfold load_filter_history. by rewrite Hd.
  - intros Hd. unfold load_filter_history, load_history. rewrite Hd. cbn.
    by destruct (backup_file d).
  - intros [Hd|Hd]; unfold load_filter_history, load_history; by rewrite Hd.
Qed.

Lemma load_falls_back_on_read_failure_witness :
  data_file Sample.broken_primary = Garbage
  ∧ load_filter_history Sample.broken_primary = Sample.two_steps
  ∧ load_history Sample.broken_primary [] = Sample.two_steps.
Proof.
  split; [reflexivity|].
  exact (proj1 (proj2 (load_falls_back_on_read_failure Sample.broken_primary []))
           eq_refl).
Defined.

(** C5 as stated fails: with the primary file empty and two events in the
    backup, nothing is loaded. *)
Lemma loaded_with_fallback_fails : ¬ Stated.loaded_with_fallback Sample.cut_primary.
Proof. intros H. vm_compute in H. discriminate H. Qed.

(** C9 as stated fails: a session on a file of 101 events, in which
    nothing happens, leaves 100 events in the file. *)
Lemma not_shortened_fails :
  ¬ Stated.not_shortened Sample.long_disk
      (background_monitoring (Sample.boot 100) [] Sample.ok
         (Sample.no_monitor, Sample.long_disk)).2.
Proof. unfold Stated.not_shortened. vm_compute. lia. Qed.

(** A file of at most 100 events loses nothing. *)
Lemma short_file_kept (l : list Event) :
  (length l <= 100)%nat → drop (length l - 100) l = l.
Proof. intros H. replace (length l - 100)%nat with 0%nat by lia. done. Qed.

(** The reset empties the primary file, and the backup when there is one. *)
Lemma reset_empties d :
  json_load (data_file (reset_filter_data d)) = Some []
  ∧ load_filter_history (reset_filter_data d) = [].
Proof. done. Qed.

(** ** The flow graph *)

Lemma add_events_prefix events : ∀ n g k,
  length (links_source g) = n → length (links_target g) = n → length (links_value g) = n →
  (k < n)%nat →
  links_source (add_events n events g) !! k = links_source g !! k
  ∧ links_target (add_events n events g) !! k = links_target g !! k
  ∧ links_value (add_events n events g) !! k = links_value g !! k.
Proof.
  induction events as [|event rest IH]; intros n g k Hs Ht Hv Hk; [done|].
  cbn [add_events].
  edestruct (IH (S n)) as (E1 & E2 & E3);
    [| | | | rewrite E1, E2, E3; cbn; rewrite !lookup_app_l by lia; done];
    cbn; rewrite ?length_app; cbn; lia.
Qed.

Lemma add_events_shape events : ∀ i g,
  length (links_source g) = i → length (links_target g) = i → length (links_value g) = i →
  length (nodes (add_events i events g)) = (length (nodes g) + length events)%nat
  ∧ length (links_source (add_events i events g)) = (i + length events)%nat
  ∧ length (links_target (add_events i events g)) = (i + length events)%nat
  ∧ length (links_value (add_events i events g)) = (i + length events)%nat
  ∧ (∀ k, (k < length (nodes g))%nat → nodes (add_events i events g) !! k = nodes g !! k)
  ∧ (∀ k e, events !! k = Some e →
       links_source (add_events i events g) !! (i + k)%nat = Some (i + k)%nat
       ∧ links_target (add_events i events g) !! (i + k)%nat = Some (S (i + k))
       ∧ links_value (add_events i events g) !! (i + k)%nat
         = Some (Z.max 1 (current_row_count e))).
Proof.
  induction events as [|event rest IH]; intros i g Hs Ht Hv.
  - cbn [add_events length]. rewrite !Nat.add_0_r. split_and!; done.
  - cbn [add_events].
    set (g1 := {| nodes := _; links_source := _; links_target := _; links_value := _ |}).
    assert (Hs1 : length (links_source g1) = S i) by (cbn; rewrite length_app; cbn; lia).
    assert (Ht1 : length (links_target g1) = S i) by (cbn; rewrite length_app; cbn; lia).
    assert (Hv1 : length (links_value g1) = S i) by (cbn; rewrite length_app; cbn; lia).
    destruct (IH (S i) g1 Hs1 Ht1 Hv1) as (Hn & Hls & Hlt & Hlv & Hpre & Hlinks).
    split_and!.
    + rewrite Hn. cbn. rewrite length_app. cbn. lia.
    + rewrite Hls. cbn. lia.
    + rewrite Hlt. cbn. lia.
    + rewrite Hlv. cbn. lia.
    + intros k Hk. rewrite Hpre by (cbn; rewrite length_app; lia).
      cbn. by rewrite lookup_app_l by lia.
    + intros [|k] e He.
      * injection He as <-. rewrite Nat.add_0_r.
        destruct (add_events_prefix rest (S i) g1 i Hs1 Ht1 Hv1) as (E1 & E2 & E3); [lia|].
        rewrite E1, E2, E3. cbn.
        rewrite !lookup_app_r by lia. rewrite Hs, Ht, Hv, Nat.sub_diag. cbn.
        split_and!; [|f_equal; lia | done].
        case_bool_decide; [done | f_equal; lia].
      * cbn in He. replace (i + S k)%nat with (S i + k)%nat by lia.
        by apply Hlinks.
Qed.

(** C7, as the code has it: for a log that is not empty the graph has one
    node more than the log has events, the first being the "All Data"
    origin, and as many links as events; the link of event i (counted from
    1) goes from node i-1 to node i and weighs max(1, current_row_count),
    which is at least 1. *)
Theorem sankey_shape (log : list Event) :
  log ≠ [] →
  ∃ g, create_sankey_diagram log = Diagram g
    ∧ length (nodes g) = S (length log)
    ∧ nodes g !! 0%nat = Some AllData
    ∧ length (links_source g) = length log
    ∧ length (links_target g) = length log
    ∧ length (links_value g) = length log
    ∧ ∀ i e, log !! i = Some e →
        links_source g !! i = Some i
        ∧ links_target g !! i = Some (S i)
        ∧ links_value g !! i = Some (Z.max 1 (current_row_count e))
        ∧ 1 <= Z.max 1 (current_row_count e).
Proof.
  intros Hne. destruct log as [|e0 rest]; [done|].
  set (log := e0 :: rest).
  set (g0 := {| nodes := [AllData]; links_source := [];
                links_target := []; links_value := [] |}).
  destruct (add_events_shape log 0 g0 eq_refl eq_refl eq_refl)
    as (Hn & Hs & Ht & Hv & Hpre & Hlinks).
  exists (add_events 0 log g0). split_and!; try done.
  - rewrite Hpre; [done | cbn; lia].
  - intros i e He. destruct (Hlinks i e He) as (E1 & E2 & E3).
    split_and!; [done | done | done | lia].
Qed.

Lemma sankey_shape_witness :
  Sample.two_steps ≠ []
  ∧ ∃ g, create_sankey_diagram Sample.two_steps = Diagram g
    ∧ length (nodes g) = S (length Sample.two_steps)
    ∧ nodes g !! 0%nat = Some AllData
    ∧ length (links_source g) = length Sample.two_steps
    ∧ length (links_target g) = length Sample.two_steps
    ∧ length (links_value g) = length Sample.two_steps
    ∧ ∀ i e, Sample.two_steps !! i = Some e →
        links_source g !! i = Some i
        ∧ links_target g !! i = Some (S i)
        ∧ links_value g !! i = Some (Z.max 1 (current_row_count e))
        ∧ 1 <= Z.max 1 (current_row_count e).
Proof.
  assert (H : Sample.two_steps ≠ []) by discriminate.
  split; [exact H|]. exact (sankey_shape Sample.two_steps H).
Defined.

(** C7 as stated fails: for the empty log the figure is a bare notice,
    with no node at all. *)
Lemma graph_sizes_fails : ¬ Stated.graph_sizes [].
Proof. intros [H _]. vm_compute in H. discriminate H. Qed.

(** ** Renaming a step *)

Section rename_facts.
Import App.

Lemma rename_same n x : rename n n x = x.
Proof. unfold rename. by case_decide. Qed.

Lemma rename_twice o n x : rename n n (rename o n x) = rename o n x.
Proof. apply rename_same. Qed.

(** What the rename writes: the new name as label, and the new name in
    place of the old one in every list of the event. *)
Lemma rename_event_fields o n e :
  filter_column (rename_event o n e) = n
  ∧ (∀ i x, filter_columns e !! i = Some x →
       filter_columns (rename_event o n e) !! i = Some (if decide (x = o) then n else x))
  ∧ (∀ i f, added_filters e !! i = Some f →
       ∃ f', added_filters (rename_event o n e) !! i = Some f'
         ∧ column f' = (if decide (column f = o) then n else column f)
         ∧ values f' = values f ∧ column_index f' = column_index f)
  ∧ (∀ i f, removed_filters e !! i = Some f →
       ∃ f', removed_filters (rename_event o n e) !! i = Some f'
         ∧ column f' = (if decide (column f = o) then n else column f)
         ∧ values f' = values f ∧ column_index f' = column_index f)
  ∧ length (filter_columns (rename_event o n e)) = length (filter_columns e)
  ∧ length (added_filters (rename_event o n e)) = length (added_filters e)
  ∧ length (removed_filters (rename_event o n e)) = length (removed_filters e)
  ∧ timestamp (rename_event o n e) = timestamp e
  ∧ action (rename_event o n e) = action e
  ∧ previous_row_count (rename_event o n e) = previous_row_count e
  ∧ current_row_count (rename_event o n e) = current_row_count e
  ∧ total_rows (rename_event o n e) = total_rows e
  ∧ active_filters (rename_event o n e) = active_filters e.
Proof.
  split_and!; try done; cbn.
  - intros i x Hx. change (map ?f ?l) with (f <$> l). by rewrite list_lookup_fmap, Hx.
  - intros i f Hf. eexists. change (map ?f ?l) with (f <$> l).
    rewrite list_lookup_fmap, Hf. done.
  - intros i f Hf. eexists. change (map ?f ?l) with (f <$> l).
    rewrite list_lookup_fmap, Hf. done.
  - apply length_map.
  - apply length_map.
  - apply length_map.
Qed.

Lemma rename_event_again o n e :
  rename_event n n (rename_event o n e) = rename_event o n e.
Proof.
  unfold rename_event; cbn. f_equal.
  - rewrite map_map. apply map_ext. intros [c v i]. unfold rename_entry; cbn.
    by rewrite rename_same.
  - rewrite map_map. apply map_ext. intros [c v i]. unfold rename_entry; cbn.
    by rewrite rename_same.
  - rewrite map_map. apply map_ext. intros x. by rewrite rename_same.
Qed.

Lemma rename_headers_lookup o n (names : gmap Z string) i :
  rename_headers o n names !! i =
    (λ x, if decide (x = o) then n else x) <$> names !! i.
Proof. unfold rename_headers. by rewrite lookup_fmap. Qed.

Lemma rename_headers_again o n (names : gmap Z string) :
  rename_headers n n (rename_headers o n names) = rename_headers o n names.
Proof.
  unfold rename_headers. apply map_eq. intros i. rewrite !lookup_fmap.
  destruct (names !! i); cbn; [|done]. by rewrite rename_same.
Qed.

Lemma copy_into_store store history l :
  ∃ extra, (copy_into store history l).1 = store ++ extra.
Proof.
  unfold copy_into. destruct (store !! l); [|exists []; by rewrite app_nil_r].
  destruct (list_find _ _) as [[i ?]|]; [by eexists | exists []; by rewrite app_nil_r].
Qed.

(** The event object chosen by the index is rewritten in place, and the
    header cache with it, whatever the two lists share. *)
Lemma edited_object st event_index new_name w l event :
  resolve st event_index = Some l →
  store st !! l = Some event →
  filter_column event ≠ "" → new_name ≠ "" → filter_column event ∉ protected →
  store (on_filter_column_edited event_index new_name w st) !! l
    = Some (rename_event (filter_column event) new_name event)
  ∧ headers (on_filter_column_edited event_index new_name w st)
    = rename_headers (filter_column event) new_name (headers st).
Proof.
  intros Hr Hl Ho Hn Hp. unfold on_filter_column_edited. rewrite Hr, Hl.
  rewrite !bool_decide_eq_false_2 by done. cbn [orb].
  set (store1 := <[l := _]> (store st)).
  assert (H1 : store1 !! l = Some (rename_event (filter_column event) new_name event)).
  { apply list_lookup_insert_eq. by eapply lookup_lt_Some. }
  destruct (if py_in store1 l (visualizer st) && _ then _ else _) as [store2 monitor2] eqn:E2.
  assert (H2 : ∃ extra, store2 = store1 ++ extra).
  { destruct (py_in store1 l (visualizer st) && _).
    - destruct (copy_into_store store1 (monitor st) l) as [extra Hx].
      rewrite E2 in Hx. by exists extra.
    - injection E2 as <- <-. exists []. by rewrite app_nil_r. }
  destruct H2 as [extra2 ->].
  destruct (if py_in _ l monitor2 && _ then _ else _) as [store3 visualizer3] eqn:E3.
  assert (H3 : ∃ extra, store3 = (store1 ++ extra2) ++ extra).
  { destruct (py_in _ l monitor2 && _).
    - destruct (copy_into_store (store1 ++ extra2) (visualizer st) l) as [extra Hx].
      rewrite E3 in Hx. by exists extra.
    - injection E3 as <- <-. exists []. by rewrite app_nil_r. }
  destruct H3 as [extra3 ->].
  unfold visualizer_load; cbn. split; [|done].
  rewrite <- !app_assoc. rewrite lookup_app_l; [done|]. by eapply lookup_lt_Some.
Qed.

Lemma contents_fresh (store data : list Event) :
  contents (store ++ data) (seq (length store) (length data)) = data.
Proof.
  unfold contents. revert store. induction data as [|e data IH]; intros store; [done|].
  cbn [length seq omap list_omap].
  rewrite lookup_app_r, Nat.sub_diag by lia. cbn.
  f_equal. specialize (IH (store ++ [e])).
  rewrite <- app_assoc, length_app in IH. cbn in IH.
  by rewrite Nat.add_1_r in IH.
Qed.

Lemma py_in_self (store : list Event) l history :
  l ∈ history → py_in store l history = true.
Proof.
  intros Hl. unfold py_in. apply existsb_exists. exists l.
  split; [by apply list_elem_of_In | by apply bool_decide_eq_true].
Qed.

Lemma at_index_lookup (history : list loc) (i : nat) l :
  history !! i = Some l → at_index history (Z.of_nat i) = Some l.
Proof.
  intros Hi. pose proof (lookup_lt_Some _ _ _ Hi) as Hlt.
  unfold at_index. destruct history as [|l0 rest]; [done|].
  rewrite !bool_decide_eq_true_2 by lia. cbn [andb]. by rewrite Nat2Z.id.
Qed.

(** Right after [refresh_visualization] the two lists hold the same
    objects, and the rename of a step shows in the log as the
    specification says. *)
Lemma rename_after_refresh st0 (i : nat) new_name w event :
  load_filter_history (files st0) !! i = Some event →
  filter_column event ≠ "" → new_name ≠ "" → filter_column event ∉ protected →
  primary_ok w = true →
  shown (on_filter_column_edited (Z.of_nat i) new_name w (refresh_visualization st0))
    = <[i := rename_event (filter_column event) new_name event]>
        (load_filter_history (files st0))
  ∧ data_file (files (on_filter_column_edited (Z.of_nat i) new_name w
                        (refresh_visualization st0)))
    = Holds (<[i := rename_event (filter_column event) new_name event]>
               (load_filter_history (files st0))).
Proof.
  intros Hi Ho Hn Hp Hw.
  set (data := load_filter_history (files st0)) in *.
  pose proof (lookup_lt_Some _ _ _ Hi) as Hlen.
  set (l := (length (store st0) + i)%nat).
  set (history := seq (length (store st0)) (length data)).
  assert (Hst : refresh_visualization st0 =
    {| store := store st0 ++ data; visualizer := history; monitor := history;
       headers := headers st0; files := files st0 |}).
  { unfold refresh_visualization, visualizer_load. cbn. fold data. fold history.
    unfold history. destruct (length data) eqn:E; [lia|]. done. }
  assert (Hl : l ∈ history).
  { unfold history, l. apply elem_of_seq. lia. }
  assert (Hr : resolve (refresh_visualization st0) (Z.of_nat i) = Some l).
  { rewrite Hst. unfold resolve; cbn [visualizer monitor].
    rewrite (at_index_lookup history i l); [done|].
    unfold history, l. by apply lookup_seq. }
  assert (He : store (refresh_visualization st0) !! l = Some event).
  { rewrite Hst; cbn. unfold l. by rewrite lookup_app_r, Nat.add_comm, Nat.add_sub by lia. }
  unfold on_filter_column_edited. rewrite Hr. unfold loc in *. rewrite He.
  rewrite !bool_decide_eq_false_2 by done. cbn [orb].
  rewrite Hst. cbn [store visualizer monitor headers files].
  set (event' := rename_event (filter_column event) new_name event).
  assert (Hs1 : <[l := event']> (store st0 ++ data) = store st0 ++ <[i := event']> data).
  { unfold l. rewrite insert_app_r_alt by lia. by rewrite Nat.add_comm, Nat.add_sub. }
  rewrite Hs1, !py_in_self by done. cbn [andb negb].
  rewrite !py_in_self by done. cbn [andb negb].
  assert (Hc : contents (store st0 ++ <[i := event']> data) history = <[i := event']> data).
  { pose proof (contents_fresh (store st0) (<[i := event']> data)) as H.
    by rewrite length_insert in H. }
  rewrite Hc. unfold save_filter_history. rewrite Hw.
  unfold shown, visualizer_load. cbn.
  split; [|done]. apply contents_fresh.
Qed.
End rename_facts.

(** C8: two renames in a row of the second of two events logged in the
    same second.  The first goes through; the second overwrites the first
    event of the log with a copy of the renamed one and leaves the second
    event, in both lists and in the file, under its previous name. *)
Theorem rename_overwrites_same_second_event :
  let st1 := App.on_filter_column_edited 1 "Area" Sample.ok Sample.opened in
  let st2 := App.on_filter_column_edited 1 "Zone" Sample.ok st1 in
  map timestamp (App.shown Sample.opened) = ["2024-05-01 10:00:00"; "2024-05-01 10:00:00"]
  ∧ map filter_column (App.shown Sample.opened) = ["All Data"; "Region"]
  ∧ map filter_column (App.shown st1) = ["All Data"; "Area"]
  ∧ map filter_column (App.shown st2) = ["Zone"; "Area"]
  ∧ map action (App.shown st2) = [initial_state; initial_state]
  ∧ App.kept st2 = App.shown st2
  ∧ data_file (App.files st2) = Holds (App.shown st2)
  ∧ ¬ Stated.renamed_at 1 "Zone" st2.
Proof.
  cbv zeta. split_and!; try (vm_compute; reflexivity).
  unfold Stated.renamed_at. vm_compute. discriminate.
Qed.

(** Repeating the first rename with the same name changes nothing: not
    the log that is shown, not the monitor's list, not the files, not the
    header cache. *)
Example rename_repeated :
  let st1 := App.on_filter_column_edited 1 "Area" Sample.ok Sample.opened in
  let st2 := App.on_filter_column_edited 1 "Area" Sample.ok st1 in
  App.shown st2 = App.shown st1
  ∧ App.kept st2 = App.kept st1
  ∧ App.files st2 = App.files st1
  ∧ App.headers st2 = App.headers st1.
Proof. cbv zeta. split_and!; vm_compute; reflexivity. Qed.

(** * Further facts *)

(** ** The reconciler, further *)

Section reconciler_more.
Import Reconciler.

Lemma minimum_perm m l l' : l ≡ₚ l' → is_minimum m l → is_minimum m l'.
Proof.
  intros Hp [Hin Hall]. split.
  - apply list_elem_of_In. rewrite <- Hp. by apply list_elem_of_In.
  - by rewrite <- Hp.
Qed.

Lemma maximum_perm m l l' : l ≡ₚ l' → is_maximum m l → is_maximum m l'.
Proof.
  intros Hp [Hin Hall]. split.
  - apply list_elem_of_In. rewrite <- Hp. by apply list_elem_of_In.
  - by rewrite <- Hp.
Qed.

Lemma reconcile_in l r : reconcile l = Some r → In r l.
Proof.
  destruct l as [|x rest]; [done|]. rewrite reconcile_cases.
  destruct (_ && _).
  - intros H. by apply sort_lookup_median in H as [H _].
  - intros [= <-]. apply py_min_minimum.
Qed.

(** The reconciled count is one of the estimates, hence between the
    smallest and the largest of them. *)
Theorem reconcile_within_estimates (visible_rows : list Z) (r min_e max_e : Z) :
  reconcile visible_rows = Some r →
  is_minimum min_e visible_rows → is_maximum max_e visible_rows →
  In r visible_rows ∧ min_e <= r <= max_e.
Proof.
  intros Hr [_ Hmin] [_ Hmax]. pose proof (reconcile_in _ _ Hr) as Hin.
  split; [done|]. rewrite Forall_forall in Hmin, Hmax.
  apply list_elem_of_In in Hin. split; [by apply Hmin | by apply Hmax].
Qed.

Lemma reconcile_within_estimates_witness :
  reconcile [10; 50; 52] = Some 50
  ∧ is_minimum 10 [10; 50; 52] ∧ is_maximum 52 [10; 50; 52]
  ∧ In 50 [10; 50; 52] ∧ 10 <= 50 <= 52.
Proof.
  assert (Hr : reconcile [10; 50; 52] = Some 50) by reflexivity.
  assert (Hmin : is_minimum 10 [10; 50; 52]).
  { split; [simpl; tauto | repeat constructor; lia]. }
  assert (Hmax : is_maximum 52 [10; 50; 52]).
  { split; [simpl; tauto | repeat constructor; lia]. }
  split; [exact Hr|]. split; [exact Hmin|]. split; [exact Hmax|].
  exact (reconcile_within_estimates [10; 50; 52] 50 10 52 Hr Hmin Hmax).
Defined.

(** The reconciled count does not depend on the order in which the
    methods delivered their estimates. *)
Theorem reconcile_order_independent (visible_rows visible_rows' : list Z) :
  visible_rows ≡ₚ visible_rows' →
  reconcile visible_rows = reconcile visible_rows'.
Proof.
  intros Hp.
  destruct visible_rows as [|x rest], visible_rows' as [|y rest'].
  - done.
  - by apply Permutation_nil_l in Hp.
  - by apply Permutation_nil_r in Hp.
  - rewrite !reconcile_cases.
    assert (Hmin : py_min x rest = py_min y rest').
    { apply (minimum_unique _ _ (y :: rest')); [|apply py_min_minimum].
      eapply minimum_perm; [exact Hp | apply py_min_minimum]. }
    assert (Hmax : py_max x rest = py_max y rest').
    { apply (maximum_unique _ _ (y :: rest')); [|apply py_max_maximum].
      eapply maximum_perm; [exact Hp | apply py_max_maximum]. }
    assert (Hsort : sort (x :: rest) = sort (y :: rest')).
    { apply sort_unique; [apply sort_sorted|]. by rewrite sort_permutation. }
    rewrite Hmin, Hmax, Hsort, (Permutation_length Hp). done.
Qed.

Lemma reconcile_order_independent_witness :
  [52; 10; 50] ≡ₚ [10; 50; 52] ∧ reconcile [52; 10; 50] = reconcile [10; 50; 52].
Proof.
  assert (Hp : [52; 10; 50] ≡ₚ [10; 50; 52]).
  { etransitivity; [apply Permutation_swap|]. apply Permutation_skip. apply Permutation_swap. }
  split; [exact Hp|]. exact (reconcile_order_independent _ _ Hp).
Defined.

Lemma keep_positive_positive rows : Forall (λ r, 0 < r) (keep_positive rows).
Proof.
  destruct rows as [r|]; cbn; [|constructor].
  case_bool_decide; by repeat constructor.
Qed.

Lemma keep_positive_length rows : (length (keep_positive rows) <= 1)%nat.
Proof. destruct rows as [r|]; cbn; [case_bool_decide|]; cbn; lia. Qed.

(** At most three estimates enter the reconciler, all of them positive;
    when there is one, the poll has a row count, which is positive and is
    one of the estimates. *)
Theorem polled_count_is_a_positive_estimate (p : Probe) :
  let visible_rows :=
    collect_visible_rows (p_direct p) (p_special_cells p) (p_sampling p) in
  (length visible_rows <= 3)%nat
  ∧ Forall (λ r, 0 < r) visible_rows
  ∧ (visible_rows ≠ [] →
     ∃ c, poll_row_count p = Some c ∧ 0 < c ∧ In c visible_rows).
Proof.
  cbv zeta. unfold collect_visible_rows.
  assert (Hpos : Forall (λ r, 0 < r)
            (keep_positive (p_direct p) ++ keep_positive (p_special_cells p)
               ++ keep_positive (p_sampling p))).
  { rewrite !Forall_app. split_and!; apply keep_positive_positive. }
  split_and!.
  - rewrite !length_app.
    pose proof (keep_positive_length (p_direct p)).
    pose proof (keep_positive_length (p_special_cells p)).
    pose proof (keep_positive_length (p_sampling p)). lia.
  - done.
  - intros Hne. unfold poll_row_count, collect_visible_rows.
    destruct (reconcile _) as [c|] eqn:Ec.
    + exists c. pose proof (reconcile_in _ _ Ec) as Hin.
      split; [done|]. split; [|done].
      rewrite Forall_forall in Hpos. apply Hpos. by apply list_elem_of_In.
    + destruct (keep_positive (p_direct p) ++ _) eqn:E; [done|].
      unfold reconcile in Ec. destruct (_ && _) in Ec; discriminate Ec.
Qed.

End reconciler_more.

(** ** One poll, further *)

#[local] Transparent record_change describe_change significant.

Lemma describe_change_added p s polled rcc fsc :
  added_filters (ch_event (describe_change p s polled rcc fsc)) =
    if rcc && negb fsc
    then dt_added (detect_changed_column p (p_filters p)
                     (if fsc then p_filters p else last_known_filters (monitor s)))
    else (if fsc then foldl (scan_current (last_filter_state s)) ([], []) (p_filters p)
          else ([], [])).1.
Proof. unfold describe_change. cbn [ch_event added_filters]. by destruct (rcc && negb fsc). Qed.

Lemma describe_change_removed p s polled rcc fsc :
  removed_filters (ch_event (describe_change p s polled rcc fsc)) =
    (if fsc
     then foldl (scan_last (p_filters p))
            ([], (foldl (scan_current (last_filter_state s)) ([], []) (p_filters p)).2)
            (last_filter_state s)
     else ([], [])).1.
Proof. unfold describe_change. cbn [ch_event removed_filters]. by destruct fsc. Qed.

Lemma describe_change_fields p s polled rcc fsc :
  let e := ch_event (describe_change p s polled rcc fsc) in
  timestamp e = p_clock p ∧ action e = filter_change
  ∧ previous_row_count e = last_row_count s
  ∧ current_row_count e =
      match p_updated p with
      | Some updated_count => if bool_decide (0 < updated_count) then updated_count else polled
      | None => polled
      end
  ∧ active_filters e = Some (Dict.keys (p_filters p)).
Proof. cbv zeta. unfold describe_change. cbn [ch_event timestamp action previous_row_count current_row_count active_filters]. done. Qed.

Lemma record_change_baseline p s polled rcc fsc :
  last_row_count (record_change p s polled rcc fsc)
    = current_row_count (ch_event (describe_change p s polled rcc fsc))
  ∧ last_filter_state (record_change p s polled rcc fsc) = p_filters p.
Proof. unfold record_change. cbn [last_row_count last_filter_state]. done. Qed.

Lemma record_change_disk p s polled rcc fsc :
  disk (record_change p s polled rcc fsc) =
    if significant s (ch_event (describe_change p s polled rcc fsc))
    then save_filter_history
           (filter_history (monitor s) ++ [ch_event (describe_change p s polled rcc fsc)])
           (p_write p) (disk s)
    else disk s.
Proof. unfold record_change. cbn [disk]. by destruct (significant _ _). Qed.

Lemma significant_cases s e :
  significant s e =
    negb (bool_decide (added_filters e = []))
    || negb (bool_decide (removed_filters e = []))
    || above_noise (last_row_count s) (current_row_count e) (loop_total_rows s).
Proof. reflexivity. Qed.

Lemma scan_current_added last items : ∀ acc f,
  f ∈ (foldl (scan_current last) acc items).1 ↔
    f ∈ acc.1 ∨ ∃ col info, (col, info) ∈ items ∧ f = entry_of col info
      ∧ (Dict.get last col = None
         ∨ ∃ old, Dict.get last col = Some old ∧ fi_values info ≠ fi_values old).
Proof.
  induction items as [|[col info] items IH]; intros [added cols] f.
  - cbn. split; [by left|]. intros [?|(? & ? & H & _)]; [done|]. by apply elem_of_nil in H.
  - cbn [foldl]. rewrite IH. unfold scan_current at 1. cbn [fst snd].
    destruct (Dict.get last col) as [old|] eqn:Eg.
    + case_bool_decide as Hv; cbn [fst].
      * rewrite elem_of_app, list_elem_of_singleton. split.
        -- intros [[?| ->]|(c & i & Hin & -> & Hc)]; [by left | right | right].
           ++ exists col, info. split; [by left|]. split; [done|]. right. by exists old.
           ++ exists c, i. split; [by right | done].
        -- intros [?|(c & i & Hin & -> & Hc)]; [by left; left|].
           apply elem_of_cons in Hin as [[= -> ->]|Hin]; [left; by right|].
           right. by exists c, i.
      * split.
        -- intros [?|(c & i & Hin & -> & Hc)]; [by left | right].
           exists c, i. split; [by right | done].
        -- intros [?|(c & i & Hin & -> & Hc)]; [by left|].
           apply elem_of_cons in Hin as [[= -> ->]|Hin]; [|right; by exists c, i].
           exfalso. destruct Hc as [Hc|(o & Hc & Hne)]; [congruence|].
           rewrite Eg in Hc. injection Hc as <-. by apply Hne.
    + cbn [fst]. rewrite elem_of_app, list_elem_of_singleton. split.
      * intros [[?| ->]|(c & i & Hin & -> & Hc)]; [by left | right | right].
        -- exists col, info. split; [by left|]. split; [done|]. by left.
        -- exists c, i. split; [by right | done].
      * intros [?|(c & i & Hin & -> & Hc)]; [by left; left|].
        apply elem_of_cons in Hin as [[= -> ->]|Hin]; [left; by right|].
        right. by exists c, i.
Qed.

Lemma scan_last_removed current items : ∀ acc f,
  f ∈ (foldl (scan_last current) acc items).1 ↔
    f ∈ acc.1 ∨ ∃ col info, (col, info) ∈ items ∧ f = entry_of col info
      ∧ Dict.get current col = None.
Proof.
  induction items as [|[col info] items IH]; intros [removed cols] f.
  - cbn. split; [by left|]. intros [?|(? & ? & H & _)]; [done|]. by apply elem_of_nil in H.
  - cbn [foldl]. rewrite IH. unfold scan_last at 1, Dict.mem. cbn [fst snd].
    destruct (Dict.get current col) as [v|] eqn:Eg.
    + rewrite bool_decide_eq_true_2 by eauto. split.
      * intros [?|(c & i & Hin & -> & Hc)]; [by left | right].
        exists c, i. split; [by right | done].
      * intros [?|(c & i & Hin & -> & Hc)]; [by left|].
        apply elem_of_cons in Hin as [[= -> ->]|Hin]; [congruence|]. right. by exists c, i.
    + rewrite bool_decide_eq_false_2 by (by intros [? ?]). cbn [fst].
      rewrite elem_of_app, list_elem_of_singleton. split.
      * intros [[?| ->]|(c & i & Hin & -> & Hc)]; [by left | right | right].
        -- exists col, info. split; [by left | done].
        -- exists c, i. split; [by right | done].
      * intros [?|(c & i & Hin & -> & Hc)]; [by left; left|].
        apply elem_of_cons in Hin as [[= -> ->]|Hin]; [left; by right|].
        right. by exists c, i.
Qed.

Lemma detect_column_added p current acc i f :
  f ∈ dt_added (detect_column p current acc i) →
  f ∈ dt_added acc ∨ ∃ info, Dict.get current (column f) = Some info.
Proof.
  unfold detect_column. destruct (p_filter_on p i); [|by left].
  destruct (p_header_cell p i) as [| |col_name]; [by left | by left |].
  destruct (Dict.get current col_name) as [info|] eqn:Eg; [|by left].
  assert (Ht : f ∈ dt_added acc ++ [entry_of col_name info] →
               f ∈ dt_added acc ∨ ∃ info, Dict.get current (column f) = Some info).
  { rewrite elem_of_app, list_elem_of_singleton. intros [?| ->]; [by left|].
    right. by exists info. }
  destruct (Dict.get (dt_known acc) col_name) as [known|]; [|exact Ht].
  case_bool_decide; [exact Ht | by left].
Qed.

Lemma detect_changed_column_added p current known f :
  f ∈ dt_added (detect_changed_column p current known) →
  ∃ info, Dict.get current (column f) = Some info.
Proof.
  unfold detect_changed_column.
  set (start := {| dt_columns := []; dt_added := []; dt_known := known; dt_active := false |}).
  assert (Hfold : ∀ idxs acc, f ∈ dt_added (foldl (detect_column p current) acc idxs) →
            f ∈ dt_added acc ∨ ∃ info, Dict.get current (column f) = Some info).
  { induction idxs as [|i idxs IH]; intros acc; [by left|]. cbn [foldl].
    intros H. apply IH in H as [H|H]; [|by right]. by apply detect_column_added in H. }
  assert (Hfound : f ∈ dt_added (if p_autofilter p
                                  then foldl (detect_column p current) start (seqZ 1 99)
                                  else start) →
            ∃ info, Dict.get current (column f) = Some info).
  { destruct (p_autofilter p).
    - intros H. apply Hfold in H as [H|H]; [by apply elem_of_nil in H | done].
    - intros H. by apply elem_of_nil in H. }
  destruct (_ && _); exact Hfound.
Qed.

#[local] Opaque record_change describe_change significant.

Lemma tick_recorded p s e :
  filter_history (monitor (tick p s)) = filter_history (monitor s) ++ [e] →
  ∃ c, p_alive p = true ∧ poll_row_count p = Some c
    ∧ tick p s = record_change p s c (jitter c (last_row_count s))
                   (negb (Dict.eqb (p_filters p) (last_filter_state s)))
    ∧ e = ch_event (describe_change p s c (jitter c (last_row_count s))
                      (negb (Dict.eqb (p_filters p) (last_filter_state s))))
    ∧ significant s e = true.
Proof.
  destruct (tick_cases p s)
    as [(_ & H & _ & Ht)|[(_ & _ & ->)|[(c & _ & _ & _ & ->)|(c & Ha & Hc & _ & Ht)]]].
  - rewrite H. intros E. symmetry in E. by apply app_singleton_neq in E.
  - intros E. symmetry in E. by apply app_singleton_neq in E.
  - intros E. symmetry in E. by apply app_singleton_neq in E.
  - rewrite Ht, record_change_history. destruct (significant _ _) eqn:Es.
    + intros E. apply app_inv_head in E. injection E as <-. by exists c.
    + intros E. symmetry in E. by apply app_singleton_neq in E.
Qed.

Lemma narrowing_appends :
  filter_history (monitor (tick Case.narrowing Sample.unfiltered))
    = filter_history (monitor Sample.unfiltered) ++ [Case.narrowed].
Proof. vm_compute. reflexivity. Qed.

Lemma clearing_appends :
  filter_history (monitor (tick (Sample.quiet 100) Sample.filtered))
    = filter_history (monitor Sample.filtered) ++ [Sample.cleared].
Proof. vm_compute. reflexivity. Qed.

(** Polls only append: after any number of polls the log is the former
    log followed by at most one event per poll, each a [filter_change]
    carrying the session's [total_rows]. *)
Theorem polls_only_append (probes : list Probe) (s : Loop) :
  ∃ appended,
    filter_history (monitor (run probes s)) = filter_history (monitor s) ++ appended
    ∧ (length appended <= length probes)%nat
    ∧ Forall (λ e, action e = filter_change ∧ total_rows e = loop_total_rows s) appended.
Proof.
  revert s. induction probes as [|p probes IH]; intros s.
  - exists []. split; [by rewrite app_nil_r|]. split; [done | constructor].
  - rewrite run_cons. destruct (IH (tick p s)) as (app & Happ & Hlen & Hall).
    destruct (tick_history p s) as (Ht & [Hsame|(e & He & Hte)]).
    + exists app. rewrite Happ, Hsame. split; [done|]. split; [cbn; lia|].
      by rewrite <- Ht.
    + exists (e :: app). rewrite Happ, He, <- app_assoc. split; [done|].
      split; [cbn; lia|]. constructor.
      * split; [|done]. apply tick_appended in He as (c & _ & _ & ->).
        apply describe_change_fields.
      * by rewrite <- Ht.
Qed.

(** The event a poll appends starts from the previous baseline, and the
    baseline of the next poll is what the event records. *)
Theorem appended_event_chains (p : Probe) (s : Loop) (e : Event) :
  filter_history (monitor (tick p s)) = filter_history (monitor s) ++ [e] →
  previous_row_count e = last_row_count s
  ∧ last_row_count (tick p s) = current_row_count e
  ∧ last_filter_state (tick p s) = p_filters p
  ∧ active_filters e = Some (Dict.keys (p_filters p))
  ∧ timestamp e = p_clock p.
Proof.
  intros H. apply tick_recorded in H as (c & _ & _ & -> & -> & _).
  destruct (describe_change_fields p s c (jitter c (last_row_count s))
              (negb (Dict.eqb (p_filters p) (last_filter_state s))))
    as (Hts & _ & Hprev & _ & Hact).
  destruct (record_change_baseline p s c (jitter c (last_row_count s))
              (negb (Dict.eqb (p_filters p) (last_filter_state s)))) as [Hrow Hstate].
  by split_and!.
Qed.

Lemma appended_event_chains_witness :
  filter_history (monitor (tick Case.narrowing Sample.unfiltered))
    = filter_history (monitor Sample.unfiltered) ++ [Case.narrowed]
  ∧ previous_row_count Case.narrowed = last_row_count Sample.unfiltered
  ∧ last_row_count (tick Case.narrowing Sample.unfiltered) = current_row_count Case.narrowed
  ∧ last_filter_state (tick Case.narrowing Sample.unfiltered) = p_filters Case.narrowing
  ∧ active_filters Case.narrowed = Some (Dict.keys (p_filters Case.narrowing))
  ∧ timestamp Case.narrowed = p_clock Case.narrowing.
Proof.
  split; [exact narrowing_appends|].
  exact (appended_event_chains Case.narrowing Sample.unfiltered Case.narrowed
           narrowing_appends).
Defined.


(** A change of the row count that is above the jitter of 2 rows but not
    above a thousandth of [total_rows], with nothing added or removed, is
    not logged; the baseline moves to the new count all the same. *)
Theorem small_change_moves_baseline (p : Probe) (s : Loop) (c : Z) :
  p_alive p = true → poll_row_count p = Some c →
  Dict.eqb (p_filters p) (last_filter_state s) = true →
  p_autofilter p = false →
  2 < Z.abs (c - last_row_count s) →
  let current_row_count :=
    match p_updated p with
    | Some updated_count => if bool_decide (0 < updated_count) then updated_count else c
    | None => c
    end in
  1000 * Z.abs (last_row_count s - current_row_count) <= loop_total_rows s →
  filter_history (monitor (tick p s)) = filter_history (monitor s)
  ∧ disk (tick p s) = disk s
  ∧ last_row_count (tick p s) = current_row_count.
Proof.
  intros Ha Hc Heq Hauto Hj now Hnoise.
  assert (Hrcc : jitter c (last_row_count s) = true)
    by (unfold jitter; by apply bool_decide_eq_true).
  destruct (tick_cases p s)
    as [(Ha' & _)|[(_ & Hc' & _)|[(c' & _ & Hc' & Hb & _)|(c' & _ & Hc' & _ & Ht)]]];
    [congruence | congruence | |].
  { rewrite Hc in Hc'. injection Hc' as <-. rewrite Heq, Hrcc in Hb. done. }
  rewrite Hc in Hc'. injection Hc' as <-. rewrite Ht, Heq, Hrcc. cbn [negb].
  destruct (describe_change_fields p s c true false) as (_ & _ & _ & Hcur & _).
  fold now in Hcur.
  assert (Hadd : added_filters (ch_event (describe_change p s c true false)) = []).
  { rewrite describe_change_added. cbn [andb negb].
    unfold detect_changed_column. rewrite Hauto. cbn [dt_columns dt_added dt_active].
    by destruct (_ && _). }
  assert (Hrem : removed_filters (ch_event (describe_change p s c true false)) = [])
    by (by rewrite describe_change_removed).
  assert (Hsig : significant s (ch_event (describe_change p s c true false)) = false).
  { rewrite significant_cases, Hadd, Hrem, Hcur. cbn [negb orb]. rewrite !bool_decide_eq_true_2 by done.
    cbn [negb orb]. unfold above_noise. apply bool_decide_eq_false. lia. }
  rewrite record_change_history, record_change_disk, Hsig.
  split; [done|]. split; [done|].
  destruct (record_change_baseline p s c true false) as [-> _]. exact Hcur.
Qed.

Lemma small_change_moves_baseline_witness :
  p_alive (Sample.quiet 5005) = true
  ∧ poll_row_count (Sample.quiet 5005) = Some 5005
  ∧ Dict.eqb (p_filters (Sample.quiet 5005)) (last_filter_state Case.large) = true
  ∧ p_autofilter (Sample.quiet 5005) = false
  ∧ 2 < Z.abs (5005 - last_row_count Case.large)
  ∧ 1000 * Z.abs (last_row_count Case.large - 5005) <= loop_total_rows Case.large
  ∧ filter_history (monitor (tick (Sample.quiet 5005) Case.large))
      = filter_history (monitor Case.large)
  ∧ disk (tick (Sample.quiet 5005) Case.large) = disk Case.large
  ∧ last_row_count (tick (Sample.quiet 5005) Case.large) = 5005.
Proof.
  assert (H1 : poll_row_count (Sample.quiet 5005) = Some 5005) by reflexivity.
  assert (H2 : 2 < Z.abs (5005 - last_row_count Case.large)) by (cbn; lia).
  assert (H3 : 1000 * Z.abs (last_row_count Case.large - 5005) <= loop_total_rows Case.large)
    by (cbn; lia).
  split; [reflexivity|]. split; [exact H1|]. split; [reflexivity|]. split; [reflexivity|].
  split; [exact H2|]. split; [exact H3|].
  exact (small_change_moves_baseline (Sample.quiet 5005) Case.large 5005
           eq_refl H1 eq_refl eq_refl H2 H3).
Defined.


(** The filters a logged event reports as added are filters of the
    current map, those it reports as removed are filters of the previous
    map that the current one lacks: no column is on both lists. *)
Theorem added_and_removed_apart (p : Probe) (s : Loop) (e : Event) :
  filter_history (monitor (tick p s)) = filter_history (monitor s) ++ [e] →
  (∀ f, f ∈ added_filters e → column f ∈ Dict.keys (p_filters p))
  ∧ (∀ f, f ∈ removed_filters e →
       ¬ (column f ∈ Dict.keys (p_filters p)) ∧ column f ∈ Dict.keys (last_filter_state s))
  ∧ (∀ f g, f ∈ added_filters e → g ∈ removed_filters e → column f ≠ column g).
Proof.
  intros H. apply tick_recorded in H as (c & _ & _ & _ & -> & _).
  set (rcc := jitter c (last_row_count s)).
  set (fsc := negb (Dict.eqb (p_filters p) (last_filter_state s))).
  assert (Hadd : ∀ f, f ∈ added_filters (ch_event (describe_change p s c rcc fsc)) →
                   column f ∈ Dict.keys (p_filters p)).
  { intros f. rewrite describe_change_added. destruct (rcc && negb fsc).
    - intros Hf. apply detect_changed_column_added in Hf as (info & Hg).
      apply get_elem_of in Hg. apply list_elem_of_fmap. by exists (column f, info).
    - destruct fsc; [|intros Hf; by apply elem_of_nil in Hf].
      rewrite scan_current_added. intros [Hf|(col & info & Hin & -> & _)];
        [by apply elem_of_nil in Hf|].
      apply list_elem_of_fmap. by exists (col, info). }
  assert (Hrem : ∀ f, f ∈ removed_filters (ch_event (describe_change p s c rcc fsc)) →
                   ¬ (column f ∈ Dict.keys (p_filters p))
                   ∧ column f ∈ Dict.keys (last_filter_state s)).
  { intros f. rewrite describe_change_removed. destruct fsc;
      [|intros Hf; by apply elem_of_nil in Hf].
    rewrite scan_last_removed. intros [Hf|(col & info & Hin & -> & Hg)];
      [by apply elem_of_nil in Hf|].
    split; [by apply get_None|]. apply list_elem_of_fmap. by exists (col, info). }
  split; [done|]. split; [done|].
  intros f g Hf Hg Heq. apply Hadd in Hf. apply Hrem in Hg as [Hg _]. by rewrite Heq in Hf.
Qed.

Lemma added_and_removed_apart_witness :
  filter_history (monitor (tick (Sample.quiet 100) Sample.filtered))
    = filter_history (monitor Sample.filtered) ++ [Sample.cleared]
  ∧ ∀ f, f ∈ removed_filters Sample.cleared →
      ¬ (column f ∈ Dict.keys (p_filters (Sample.quiet 100)))
      ∧ column f ∈ Dict.keys (last_filter_state Sample.filtered).
Proof.
  split; [exact clearing_appends|].
  exact (proj1 (proj2 (added_and_removed_apart (Sample.quiet 100) Sample.filtered
                         Sample.cleared clearing_appends))).
Defined.


(** When the filter map changed, the logged event lists as added exactly
    the filters that are new or have other values than before, and as
    removed exactly the filters of the previous map that are gone. *)
Theorem diff_of_filter_maps (p : Probe) (s : Loop) (e : Event) :
  filter_history (monitor (tick p s)) = filter_history (monitor s) ++ [e] →
  Dict.eqb (p_filters p) (last_filter_state s) = false →
  (∀ f, f ∈ added_filters e ↔
     ∃ col info, (col, info) ∈ p_filters p ∧ f = entry_of col info
       ∧ (Dict.get (last_filter_state s) col = None
          ∨ ∃ old, Dict.get (last_filter_state s) col = Some old
                   ∧ fi_values info ≠ fi_values old))
  ∧ (∀ f, f ∈ removed_filters e ↔
       ∃ col info, (col, info) ∈ last_filter_state s ∧ f = entry_of col info
         ∧ Dict.get (p_filters p) col = None).
Proof.
  intros H Hne. apply tick_recorded in H as (c & _ & _ & _ & -> & _).
  rewrite Hne. cbn [negb]. split; intros f.
  - rewrite describe_change_added, andb_false_r, scan_current_added. cbn [fst].
    split; [intros [Hf|Hf]; [by apply elem_of_nil in Hf | done] | by right].
  - rewrite describe_change_removed, scan_last_removed. cbn [fst].
    split; [intros [Hf|Hf]; [by apply elem_of_nil in Hf | done] | by right].
Qed.

Lemma diff_of_filter_maps_witness :
  filter_history (monitor (tick (Sample.quiet 100) Sample.filtered))
    = filter_history (monitor Sample.filtered) ++ [Sample.cleared]
  ∧ Dict.eqb (p_filters (Sample.quiet 100)) (last_filter_state Sample.filtered) = false
  ∧ ∀ f, f ∈ removed_filters Sample.cleared ↔
      ∃ col info, (col, info) ∈ last_filter_state Sample.filtered ∧ f = entry_of col info
        ∧ Dict.get (p_filters (Sample.quiet 100)) col = None.
Proof.
  split; [exact clearing_appends|]. split; [reflexivity|].
  exact (proj2 (diff_of_filter_maps (Sample.quiet 100) Sample.filtered Sample.cleared
                  clearing_appends eq_refl)).
Defined.


(** A logged event is saved at once: in the primary file when it can be
    written, else in the backup, the primary staying as it was; when
    neither can be written the event stays in memory only. *)
Theorem appended_event_saved (p : Probe) (s : Loop) (e : Event) :
  filter_history (monitor (tick p s)) = filter_history (monitor s) ++ [e] →
  (primary_ok (p_write p) = true →
     data_file (disk (tick p s)) = Holds (filter_history (monitor s) ++ [e])
     ∧ backup_file (disk (tick p s)) = backup_file (disk s))
  ∧ (primary_ok (p_write p) = false → backup_ok (p_write p) = true →
     backup_file (disk (tick p s)) = Holds (filter_history (monitor s) ++ [e])
     ∧ data_file (disk (tick p s)) = data_file (disk s))
  ∧ (primary_ok (p_write p) = false → backup_ok (p_write p) = false →
     disk (tick p s) = disk s).
Proof.
  intros H. apply tick_recorded in H as (c & _ & _ & -> & -> & Hsig).
  rewrite record_change_disk, Hsig. unfold save_filter_history.
  split_and!.
  - by intros ->.
  - by intros -> ->.
  - by intros -> ->.
Qed.

Lemma appended_event_saved_witness :
  filter_history (monitor (tick Case.narrowing Sample.unfiltered))
    = filter_history (monitor Sample.unfiltered) ++ [Case.narrowed]
  ∧ (primary_ok (p_write Case.narrowing) = true →
     data_file (disk (tick Case.narrowing Sample.unfiltered))
       = Holds (filter_history (monitor Sample.unfiltered) ++ [Case.narrowed])
     ∧ backup_file (disk (tick Case.narrowing Sample.unfiltered))
       = backup_file (disk Sample.unfiltered)).
Proof.
  split; [exact narrowing_appends|].
  exact (proj1 (appended_event_saved Case.narrowing Sample.unfiltered Case.narrowed
                  narrowing_appends)).
Defined.


(** The label of a logged event is never empty, as long as no filtered
    column has an empty name. *)
Theorem logged_label_not_empty (p : Probe) (s : Loop) (e : Event) :
  filter_history (monitor (tick p s)) = filter_history (monitor s) ++ [e] →
  (∀ col, col ∈ Dict.keys (p_filters p) → col ≠ "") →
  filter_column e ≠ "".
Proof.
  intros H Hkeys. pose proof H as H'.
  apply tick_recorded in H as (c & _ & _ & _ & He & _).
  assert (Hadd : ∀ f, f ∈ added_filters e → column f ∈ Dict.keys (p_filters p)).
  { subst e. intros f. rewrite describe_change_added. destruct (_ && negb _).
    - intros Hf. apply detect_changed_column_added in Hf as (info & Hg).
      apply get_elem_of in Hg. apply list_elem_of_fmap. by exists (column f, info).
    - destruct (negb _); [|intros Hf; by apply elem_of_nil in Hf].
      rewrite scan_current_added. intros [Hf|(col & info & Hin & -> & _)];
        [by apply elem_of_nil in Hf|].
      apply list_elem_of_fmap. by exists (col, info). }
  rewrite He, describe_change_label, <- He.
  pose proof (display_filter_column_cases (added_filters e) (removed_filters e)
                (jitter c (last_row_count s))
                (negb (Dict.eqb (p_filters p) (last_filter_state s))) (p_filters p)) as Hl.
  destruct (bool_decide _ && _); [by rewrite Hl|].
  destruct (added_filters e) as [|f added] eqn:Ea.
  - destruct (removed_filters e) as [|g removed]; rewrite Hl; [by destruct (_ && _) | done].
  - rewrite Hl. apply Hkeys, Hadd. by left.
Qed.

Lemma logged_label_not_empty_witness :
  filter_history (monitor (tick Case.narrowing Sample.unfiltered))
    = filter_history (monitor Sample.unfiltered) ++ [Case.narrowed]
  ∧ (∀ col, col ∈ Dict.keys (p_filters Case.narrowing) → col ≠ "")
  ∧ filter_column Case.narrowed ≠ "".
Proof.
  assert (H : ∀ col, col ∈ Dict.keys (p_filters Case.narrowing) → col ≠ "").
  { intros col Hc. apply list_elem_of_singleton in Hc. by rewrite Hc. }
  split; [exact narrowing_appends|]. split; [exact H|].
  exact (logged_label_not_empty Case.narrowing Sample.unfiltered Case.narrowed
           narrowing_appends H).
Defined.

(** ** A session, further *)

(** A session that finds in the loaded log a positive [total_rows] and a
    last event with a positive row count resumes it: no "All Data" event
    is logged.  Any other session logs one first, with the session's
    [total_rows] as its previous, current and total count. *)
Theorem session_resumes_or_restarts (b : Boot) (m : Monitor) (d : Disk) (s : Loop) :
  start_session b m d = Some s →
  let loaded := load_history d (filter_history m) in
  let resumes :=
    bool_decide (0 < original_total_rows loaded)
    && bool_decide (0 < default 0 (current_row_count <$> last loaded)) in
  ∃ appended,
    filter_history (monitor s) = loaded ++ appended
    ∧ (resumes = true →
       Forall (λ e, action e = initial_state) appended
       ∧ loop_total_rows s = original_total_rows loaded)
    ∧ (resumes = false →
       head appended = Some (connection_event (b_clock b) (loop_total_rows s))).
Proof.
  unfold start_session. destruct (b_connect b) as [headers|]; [|done].
  intros [= <-]. cbv zeta. cbn [loop_total_rows filter_history monitor].
  set (loaded := load_history d (filter_history m)).
  destruct (bool_decide (0 < original_total_rows loaded)) eqn:Eo;
    destruct (bool_decide (0 < default 0 (current_row_count <$> last loaded))) eqn:El;
    cbn [andb negb]; destruct (negb (bool_decide (b_filters b = [])) && _).
  all: try (eexists [_; _]; rewrite <- app_assoc; split; [reflexivity|]; split; [done|];
            intros _; reflexivity).
  all: try (eexists [_]; split; [reflexivity|]; split; [done|]; intros _; reflexivity).
  - eexists [_]. split; [reflexivity|]. split; [|done]. intros _.
    split; [by repeat constructor|]. unfold session_total. by rewrite Eo.
  - exists []. split; [by rewrite app_nil_r|]. split; [|done]. intros _.
    split; [constructor|]. unfold session_total. by rewrite Eo.
Qed.

Lemma session_resumes_or_restarts_witness :
  start_session (Sample.boot 100) Sample.no_monitor Sample.short_disk = Some Sample.resumed
  ∧ ∃ appended,
      filter_history (monitor Sample.resumed) = Sample.two_steps ++ appended
      ∧ Forall (λ e, action e = initial_state) appended.
Proof.
  assert (H : start_session (Sample.boot 100) Sample.no_monitor Sample.short_disk
              = Some Sample.resumed) by reflexivity.
  split; [exact H|].
  destruct (session_resumes_or_restarts (Sample.boot 100) Sample.no_monitor
              Sample.short_disk Sample.resumed H) as (appended & Happ & Hres & _).
  exists appended. split; [exact Happ|]. exact (proj1 (Hres eq_refl)).
Defined.


(** ** Saving and loading, further *)

(** When the primary file cannot be written and the backup can, the next
    load sees the saved events only if the primary file is unreadable; a
    readable primary file wins with the older log it holds, an absent or
    empty one gives the visualizer nothing. *)
Theorem save_to_backup_then_load (history : list Event) (w : Writes) (d : Disk) :
  primary_ok w = false → backup_ok w = true →
  (data_file d = Garbage → load_filter_history (save_filter_history history w d) = history)
  ∧ (∀ old, data_file d = Holds old →
       load_filter_history (save_filter_history history w d) = old)
  ∧ (data_file d = Missing ∨ data_file d = Blank →
     load_filter_history (save_filter_history history w d) = []).
Proof.
  intros Hp Hb. unfold save_filter_history. rewrite Hp, Hb.
  unfold load_filter_history. cbn [data_file backup_file].
  split_and!.
  - by intros ->.
  - by intros old ->.
  - by intros [-> | ->].
Qed.

Lemma save_to_backup_then_load_witness :
  primary_ok Case.backup_only = false ∧ backup_ok Case.backup_only = true
  ∧ ∀ old, data_file Sample.short_disk = Holds old →
      load_filter_history (save_filter_history [Case.narrowed] Case.backup_only
                             Sample.short_disk) = old.
Proof.
  split; [reflexivity|]. split; [reflexivity|].
  exact (proj1 (proj2 (save_to_backup_then_load [Case.narrowed] Case.backup_only
                         Sample.short_disk eq_refl eq_refl))).
Defined.


(** After a reset either load gives the empty log, whatever the files
    held and whatever the monitor still has in memory. *)
Theorem reset_then_load (d : Disk) (current : list Event) :
  load_filter_history (reset_filter_data d) = []
  ∧ load_history (reset_filter_data d) current = []
  ∧ (exists_ (backup_file d) = true →
     json_load (backup_file (reset_filter_data d)) = Some [])
  ∧ (exists_ (backup_file d) = false →
     backup_file (reset_filter_data d) = backup_file d).
Proof.
  split_and!; try done; unfold reset_filter_data; cbn [backup_file]; by intros ->.
Qed.

(** ** The flow graph, further *)

Lemma add_events_nodes events : ∀ i g,
  nodes (add_events i events g) =
    nodes g ++ imap (λ k e, Step (step_filter_col (i + k) e)
                              (current_row_count e) (total_rows e)) events.
Proof.
  induction events as [|event rest IH]; intros i g.
  - cbn. by rewrite app_nil_r.
  - cbn [add_events]. rewrite IH. cbn [nodes]. rewrite imap_cons, <- app_assoc.
    cbn [app]. rewrite Nat.add_0_r. f_equal. f_equal.
    apply imap_ext. intros k e _. cbn. by rewrite Nat.add_succ_r.
Qed.

(** The nodes after the origin are the events in their order: node i is
    labelled with the step name, the row count and the total of event i,
    the step name being the event's own label when it has one. *)
Theorem sankey_node_labels (log : list Event) :
  log ≠ [] →
  ∃ g, create_sankey_diagram log = Diagram g
    ∧ nodes g = AllData :: imap (λ i e, Step (step_filter_col i e)
                                          (current_row_count e) (total_rows e)) log
    ∧ ∀ i e, log !! i = Some e → filter_column e ≠ "" →
        nodes g !! S i = Some (Step (filter_column e) (current_row_count e) (total_rows e)).
Proof.
  intros Hne. destruct log as [|e0 rest]; [done|].
  set (log := e0 :: rest).
  set (g0 := {| nodes := [AllData]; links_source := [];
                links_target := []; links_value := [] |}).
  assert (Hnodes : nodes (add_events 0 log g0) =
            AllData :: imap (λ i e, Step (step_filter_col i e)
                                      (current_row_count e) (total_rows e)) log).
  { by rewrite add_events_nodes. }
  exists (add_events 0 log g0). split; [done|]. split; [done|].
  intros i e Hi Hcol. rewrite Hnodes.
  change ((AllData :: ?l) !! S i) with (l !! i).
  rewrite list_lookup_imap, Hi. cbn.
  unfold step_filter_col. by destruct (filter_column e).
Qed.

Lemma sankey_node_labels_witness :
  Sample.two_steps ≠ []
  ∧ ∃ g, create_sankey_diagram Sample.two_steps = Diagram g
      ∧ nodes g !! 2%nat = Some (Step "Region" 40 100).
Proof.
  assert (H : Sample.two_steps ≠ []) by discriminate.
  split; [exact H|].
  destruct (sankey_node_labels Sample.two_steps H) as (g & Hg & _ & Hn).
  exists g. split; [exact Hg|].
  refine (Hn 1%nat (state_event "2024-05-01 10:00:00" 100 40 [("Region", Sample.region)])
            eq_refl _).
  discriminate.
Defined.


(** ** The table *)

Lemma ascii_compare_trans a b c :
  (a ?= b)%char ≠ Gt → (b ?= c)%char ≠ Gt → (a ?= c)%char ≠ Gt.
Proof.
  unfold Ascii.compare. rewrite !N.compare_gt_iff. lia.
Qed.

Lemma string_leb_trans s1 : ∀ s2 s3,
  String.leb s1 s2 = true → String.leb s2 s3 = true → String.leb s1 s3 = true.
Proof.
  unfold String.leb.
  induction s1 as [|a s1 IH]; intros [|b s2] [|c s3]; cbn; try done.
  unfold Ascii.compare.
  destruct (N.compare_spec (N_of_ascii a) (N_of_ascii b)) as [Hab|Hab|Hab]; [| |done];
    destruct (N.compare_spec (N_of_ascii b) (N_of_ascii c)) as [Hbc|Hbc|Hbc]; try done;
    destruct (N.compare_spec (N_of_ascii a) (N_of_ascii c)) as [Hac|Hac|Hac]; try done;
    try lia.
  apply IH.
Qed.

#[local] Instance string_le_total : Total string_le.
Proof. intros s1 s2. apply String.leb_total. Qed.
#[local] Instance string_le_trans : Transitive string_le.
Proof. intros s1 s2 s3. apply string_leb_trans. Qed.
#[local] Instance string_le_antisym : AntiSymm (=) string_le.
Proof. intros s1 s2 H1 H2. by apply String.leb_antisym. Qed.

(** The columns of the table after the four fixed ones are the names
    that some event lists among its added or removed filters, each once,
    in ascending order. *)
Theorem table_columns (log : list Event) :
  StronglySorted string_le (all_columns log)
  ∧ NoDup (all_columns log)
  ∧ ∀ col, col ∈ all_columns log ↔
      ∃ e f, e ∈ log ∧ (f ∈ added_filters e ∨ f ∈ removed_filters e) ∧ column f = col.
Proof.
  unfold all_columns. split_and!.
  - apply (Sorted_StronglySorted string_le), (Sorted_merge_sort string_le).
  - rewrite (merge_sort_Permutation string_le). apply NoDup_remove_dups.
  - intros col. rewrite (merge_sort_Permutation string_le), elem_of_remove_dups,
      list_elem_of_bind. unfold touched. split.
    + intros (e & Hc & He). exists e. apply elem_of_app in Hc as [Hc|Hc];
        change (map ?f ?l) with (f <$> l) in Hc;
        apply list_elem_of_fmap in Hc as (f & -> & Hf); exists f; eauto.
    + intros (e & f & He & Hf & <-). exists e. split; [|done].
      apply elem_of_app. change (map ?f ?l) with (f <$> l).
      destruct Hf as [Hf|Hf]; [left | right]; apply list_elem_of_fmap; by exists f.
Qed.

Lemma replay_added (active : gmap string (list string)) added col :
  foldl (λ a f, <[column f := values f]> a) active added !! col =
    match last (filter (λ f, column f = col) added) with
    | Some f => Some (values f)
    | None => active !! col
    end.
Proof.
  revert active. induction added as [|f added IH] using rev_ind; intros active; [done|].
  rewrite foldl_app, filter_app. cbn [foldl].
  destruct (decide (column f = col)) as [<-|Hne].
  - rewrite lookup_insert_eq, filter_cons_True by done.
    cbn [filter list_filter]. by rewrite last_snoc.
  - rewrite lookup_insert_ne, filter_cons_False by done.
    cbn [filter list_filter]. rewrite app_nil_r. apply IH.
Qed.

Lemma replay_removed (active : gmap string (list string)) removed col :
  foldl (λ a f, delete (column f) a) active removed !! col =
    if bool_decide (col ∈ map column removed) then None else active !! col.
Proof.
  revert active. induction removed as [|f removed IH]; intros active; [done|].
  cbn [foldl map]. rewrite IH. destruct (decide (column f = col)) as [<-|Hne].
  - rewrite lookup_delete_eq. rewrite (bool_decide_eq_true_2 (_ ∈ _ :: _)) by left.
    by case_bool_decide.
  - rewrite lookup_delete_ne by done.
    case_bool_decide as H1; case_bool_decide as H2; try done.
    + exfalso. apply H2. by right.
    + exfalso. apply elem_of_cons in H2 as [H2|H2]; [by subst | done].
Qed.

(** One event changes the running map of active filters thus: a column
    among its removed filters is off, even when the event also adds it;
    else a column among its added filters has the values of the last such
    entry; any other column is as before. *)
Theorem replay_step (active : gmap string (list string)) (event : Event) (col : string) :
  replay active event !! col =
    if bool_decide (col ∈ map column (removed_filters event)) then None
    else match last (filter (λ f, column f = col) (added_filters event)) with
         | Some f => Some (values f)
         | None => active !! col
         end.
Proof. unfold replay. by rewrite replay_removed, replay_added. Qed.

Lemma fill_cell_lookup active columns : ∀ row key,
  foldl (fill_cell active) row columns !! key =
    if bool_decide (key ∈ columns) then Some (Text (cell_text active key)) else row !! key.
Proof.
  induction columns as [|col columns IH]; intros row key; [done|].
  cbn [foldl]. rewrite IH. unfold fill_cell.
  destruct (decide (key = col)) as [->|Hne].
  - rewrite lookup_insert_eq, (bool_decide_eq_true_2 (col ∈ col :: columns)) by left.
    by case_bool_decide.
  - rewrite lookup_insert_ne by done.
    case_bool_decide as H1; case_bool_decide as H2; try done.
    + exfalso. apply H2. by right.
    + exfalso. apply elem_of_cons in H2 as [H2|H2]; done.
Qed.

Lemma table_rows_spec columns events : ∀ i active,
  (table_rows columns i active events = None ↔ ∃ e, e ∈ events ∧ total_rows e = 0)
  ∧ ∀ data, table_rows columns i active events = Some data →
      length data = length events
      ∧ ∀ k e, events !! k = Some e →
          data !! k =
            Some (foldl (fill_cell (foldl replay active (take (S k) events)))
                    (new_row (i + k) e) columns).
Proof.
  induction events as [|event rest IH]; intros i active.
  - cbn. split.
    + split; [done|]. intros (e & He & _). by apply elem_of_nil in He.
    + intros data [= <-]. split; [done|]. intros k e Hk. done.
  - cbn [table_rows]. destruct (IH (S i) (replay active event)) as [IHn IHs].
    case_bool_decide as Ht.
    + split; [|done]. split; [|done]. intros _. exists event. split; [by left | done].
    + destruct (table_rows columns (S i) (replay active event) rest) as [data'|] eqn:Er.
      * cbn. split.
        -- split; [done|]. intros (e & He & Hz).
           apply elem_of_cons in He as [->|He]; [done|].
           assert (Some data' = None) as Hcontra; [|done].
           apply IHn. by exists e.
        -- intros data [= <-]. destruct (IHs data' eq_refl) as [Hlen Hrows].
           split; [cbn; by rewrite Hlen|].
           intros [|k] e Hk.
           ++ injection Hk as <-. cbn. by rewrite Nat.add_0_r.
           ++ cbn in Hk. rewrite Nat.add_succ_r. exact (Hrows k e Hk).
      * cbn. split; [|done]. split; [|done]. intros _.
        destruct (proj1 IHn eq_refl) as (e & He & Hz). exists e. split; [by right | done].
Qed.

Lemma create_filter_table_nonempty log :
  log ≠ [] →
  create_filter_table log =
    match table_rows (all_columns log) 0 ∅ log with
    | Some data => Table (table_figure (all_columns log) data)
    | None => TableRaises
    end.
Proof. by destruct log. Qed.

Lemma create_filter_table_raises log :
  create_filter_table log = TableRaises ↔ log ≠ [] ∧ ∃ e, e ∈ log ∧ total_rows e = 0.
Proof.
  destruct (decide (log = [])) as [->|Hne]; [split; [done | by intros [? _]]|].
  destruct (table_rows_spec (all_columns log) log 0 ∅) as [Hn _].
  rewrite (create_filter_table_nonempty log Hne).
  destruct (table_rows (all_columns log) 0 ∅ log) as [data|] eqn:Er.
  - split; [done|]. intros [_ Hz]. apply Hn in Hz. done.
  - split; [|done]. intros _. split; [done|]. by apply Hn.
Qed.

(** What the table shows in row [i] under the key [key]. *)
Lemma column_values_lookup log fig :
  create_filter_table log = Table fig →
  ∃ data, fig = table_figure (all_columns log) data
    ∧ length data = length log
    ∧ ∀ key i e, log !! i = Some e →
        column_values key data !! i =
          Some (if bool_decide (key ∈ all_columns log)
                then Text (cell_text (foldl replay ∅ (take (S i) log)) key)
                else default (Text "") (new_row i e !! key)).
Proof.
  intros Ht. destruct (table_rows_spec (all_columns log) log 0 ∅) as [_ Hs].
  assert (Hne : log ≠ []) by (intros ->; done).
  rewrite (create_filter_table_nonempty log Hne) in Ht.
  destruct (table_rows (all_columns log) 0 ∅ log) as [data|] eqn:Er; [|done].
  injection Ht as <-. destruct (Hs data eq_refl) as [Hlen Hrows].
  exists data. split; [done|]. split; [done|]. intros key i e Hi.
  unfold column_values. change (map ?f ?l) with (f <$> l).
  rewrite list_lookup_fmap, (Hrows i e Hi). cbn. rewrite fill_cell_lookup.
  by case_bool_decide.
Qed.

(** The table has no figure for an empty log, and cannot be made when
    some event has [total_rows] 0, the percentage dividing by it; for any
    other log it has the four fixed columns and then one per filtered
    column, and every column has one cell per event. *)
Theorem table_shape (log : list Event) :
  (create_filter_table log = NoTable ↔ log = [])
  ∧ (create_filter_table log = TableRaises ↔
       log ≠ [] ∧ ∃ e, e ∈ log ∧ total_rows e = 0)
  ∧ ∀ fig, create_filter_table log = Table fig →
      header_values fig = fixed_header ++ all_columns log
      ∧ length (cells_values fig) = length (header_values fig)
      ∧ Forall (λ cells, length cells = length log) (cells_values fig).
Proof.
  split; [|split; [apply create_filter_table_raises|]].
  - destruct log; [done|]. unfold create_filter_table.
    split; [|done]. by destruct (table_rows _ _ _ _).
  - intros fig Ht.
    destruct (column_values_lookup log fig Ht) as (data & -> & Hlen & _).
    cbn [header_values cells_values table_figure]. split; [done|].
    split; [by rewrite !length_app, length_map|].
    assert (Hc : ∀ key, length (column_values key data) = length log).
    { intros key. unfold column_values. by rewrite length_map. }
    apply Forall_app. split; [by repeat constructor|].
    apply Forall_forall. intros cells Hin. change (map ?f ?l) with (f <$> l) in Hin.
    apply list_elem_of_fmap in Hin as (col & -> & _). apply Hc.
Qed.

(** In the table, the cell of a filtered column in the row of event i is
    the comma-joined values that column has after the events up to and
    including i are replayed from the empty map, and is empty when the
    column is not active then. *)
Theorem table_cells_replay (log : list Event) (fig : TableFigure)
    (i j : nat) (e : Event) (col : string) :
  create_filter_table log = Table fig →
  log !! i = Some e → all_columns log !! j = Some col →
  ∃ cells, cells_values fig !! (4 + j)%nat = Some cells
    ∧ cells !! i =
        Some (Text (match foldl replay ∅ (take (S i) log) !! col with
                    | Some vals => String.concat ", " vals
                    | None => ""
                    end)).
Proof.
  intros Ht Hi Hj.
  destruct (column_values_lookup log fig Ht) as (data & -> & _ & Hv).
  exists (column_values col data). split.
  - cbn [cells_values table_figure]. rewrite lookup_app_r by (cbn; lia).
    change (map ?f ?l) with (f <$> l).
    replace (4 + j - length _)%nat with j by (cbn; lia).
    by rewrite list_lookup_fmap, Hj.
  - rewrite (Hv col i e Hi), bool_decide_eq_true_2; [done|].
    by eapply list_elem_of_lookup_2.
Qed.

Lemma table_cells_replay_witness :
  create_filter_table Sample.two_steps = Table Case.table
  ∧ Sample.two_steps !! 1%nat
    = Some (state_event "2024-05-01 10:00:00" 100 40 [("Region", Sample.region)])
  ∧ all_columns Sample.two_steps !! 0%nat = Some "Region"
  ∧ ∃ cells, cells_values Case.table !! 4%nat = Some cells
      ∧ cells !! 1%nat =
          Some (Text (match foldl replay ∅ (take 2 Sample.two_steps) !! "Region" with
                      | Some vals => String.concat ", " vals
                      | None => ""
                      end)).
Proof.
  assert (H1 : create_filter_table Sample.two_steps = Table Case.table)
    by (vm_compute; reflexivity).
  assert (H3 : all_columns Sample.two_steps !! 0%nat = Some "Region")
    by (vm_compute; reflexivity).
  split; [exact H1|]. split; [reflexivity|]. split; [exact H3|].
  exact (table_cells_replay Sample.two_steps Case.table 1 0 _ "Region" H1 eq_refl H3).
Defined.


(** The four fixed columns of the table show the step name, the
    timestamp, the row count and the share of the total of each event,
    unless a filtered column bears the name of the row's key: a filtered
    column called "Rows", say, puts its filter text where the row counts
    were. *)
Theorem table_fixed_columns (log : list Event) (fig : TableFigure) (i : nat) (e : Event) :
  create_filter_table log = Table fig → log !! i = Some e →
  let shown (k : nat) := cells_values fig !! k ≫= (λ cells, cells !! i) in
  let cell key := Text (cell_text (foldl replay ∅ (take (S i) log)) key) in
  shown 0%nat = Some (if bool_decide ("Step" ∈ all_columns log) then cell "Step"
                      else Text (table_step_name i e))
  ∧ shown 1%nat = Some (if bool_decide ("Timestamp" ∈ all_columns log) then cell "Timestamp"
                        else Text (timestamp e))
  ∧ shown 2%nat = Some (if bool_decide ("Rows" ∈ all_columns log) then cell "Rows"
                        else Number (current_row_count e))
  ∧ shown 3%nat = Some (if bool_decide ("% of Total" ∈ all_columns log)
                        then cell "% of Total"
                        else Percent (current_row_count e) (total_rows e)).
Proof.
  intros Ht Hi. cbv zeta.
  destruct (column_values_lookup log fig Ht) as (data & -> & _ & Hv).
  cbn [cells_values table_figure app lookup list_lookup mbind option_bind].
  rewrite !(Hv _ i e Hi). split_and!; by case_bool_decide.
Qed.

Lemma table_fixed_columns_witness :
  create_filter_table Sample.two_steps = Table Case.table
  ∧ Sample.two_steps !! 1%nat
    = Some (state_event "2024-05-01 10:00:00" 100 40 [("Region", Sample.region)])
  ∧ cells_values Case.table !! 2%nat ≫= (λ cells, cells !! 1%nat) =
      Some (if bool_decide ("Rows" ∈ all_columns Sample.two_steps)
            then Text (cell_text (foldl replay ∅ (take 2 Sample.two_steps)) "Rows")
            else Number 40).
Proof.
  assert (H1 : create_filter_table Sample.two_steps = Table Case.table)
    by (vm_compute; reflexivity).
  split; [exact H1|]. split; [reflexivity|].
  exact (proj1 (proj2 (proj2 (table_fixed_columns Sample.two_steps Case.table 1 _
                                H1 eq_refl)))).
Defined.


(** The table and the flow graph name a step alike, unless the event has
    no label of its own and its first added filter has an empty column
    name: the graph then shows the empty name, the table "Step i+1". *)
Theorem steps_named_alike (i : nat) (e : Event) :
  (filter_column e = "" → ∀ f, head (added_filters e) = Some f → column f ≠ "") →
  table_step_name i e = step_filter_col i e.
Proof.
  intros H. unfold table_step_name, step_filter_col.
  destruct (filter_column e) as [|a s]; [|done].
  destruct (added_filters e) as [|f added].
  - by destruct (removed_filters e).
  - specialize (H eq_refl f eq_refl). by destruct (column f).
Qed.

Lemma steps_named_alike_witness :
  (filter_column Case.unlabelled = "" →
   ∀ f, head (added_filters Case.unlabelled) = Some f → column f ≠ "")
  ∧ table_step_name 1 Case.unlabelled = step_filter_col 1 Case.unlabelled.
Proof.
  assert (H : filter_column Case.unlabelled = "" →
              ∀ f, head (added_filters Case.unlabelled) = Some f → column f ≠ "").
  { intros _ f Hf. injection Hf as <-. discriminate. }
  split; [exact H|]. exact (steps_named_alike 1 Case.unlabelled H).
Defined.


(** The report is not saved for a log in which some event has
    [total_rows] 0, even when the file could be written. *)
Theorem report_fails_on_zero_total (log : list Event) (written : bool) (e : Event) :
  e ∈ log → total_rows e = 0 → save_full_report log written = false.
Proof.
  intros He Hz. unfold save_full_report.
  rewrite (proj2 (create_filter_table_raises log)); [done|]. split; [|by exists e].
  intros ->. by apply elem_of_nil in He.
Qed.

Lemma report_fails_on_zero_total_witness :
  connection_event "2024-05-01 10:00:00" 0 ∈ [connection_event "2024-05-01 10:00:00" 0]
  ∧ total_rows (connection_event "2024-05-01 10:00:00" 0) = 0
  ∧ save_full_report [connection_event "2024-05-01 10:00:00" 0] true = false.
Proof.
  assert (H : connection_event "2024-05-01 10:00:00" 0
              ∈ [connection_event "2024-05-01 10:00:00" 0]) by (by left).
  split; [exact H|]. split; [reflexivity|].
  exact (report_fails_on_zero_total _ true _ H eq_refl).
Defined.

(** ** The header cache *)

Lemma read_batch_lookup count items : NoDup items.*1 →
  ∀ i name, foldl (read_batch count) ∅ items !! i = Some name ↔
    ∃ val, (i, val) ∈ items ∧ i <= count ∧ name = header_name i val.
Proof.
  induction items as [|[k v] items IH] using rev_ind; intros Hnd i name.
  - cbn. rewrite lookup_empty. split; [done|]. intros (val & H & _). by apply elem_of_nil in H.
  - rewrite fmap_app in Hnd. apply NoDup_app in Hnd as (Hnd & Hk & _).
    rewrite foldl_app. cbn [foldl]. unfold read_batch at 1. cbn [fst snd].
    specialize (IH Hnd).
    assert (Hfresh : ∀ val, (k, val) ∈ items → False).
    { intros val Hin. apply (Hk k); [|cbn; by left].
      apply list_elem_of_fmap. by exists (k, val). }
    case_bool_decide as Hc.
    + destruct (decide (i = k)) as [->|Hne].
      * rewrite lookup_insert_eq. split.
        -- intros [= <-]. exists v. split; [|done]. apply elem_of_app. right. by left.
        -- intros (val & Hin & _ & ->). apply elem_of_app in Hin as [Hin|Hin].
           ++ by apply Hfresh in Hin.
           ++ apply list_elem_of_singleton in Hin. by injection Hin as <-.
      * rewrite lookup_insert_ne by done. rewrite IH. split.
        -- intros (val & Hin & ?). exists val. split; [|done]. apply elem_of_app. by left.
        -- intros (val & Hin & ?). exists val. split; [|done].
           apply elem_of_app in Hin as [Hin|Hin]; [done|].
           apply list_elem_of_singleton in Hin. congruence.
    + rewrite IH. split.
      * intros (val & Hin & ?). exists val. split; [|done]. apply elem_of_app. by left.
      * intros (val & Hin & Hic & ->). exists val. split; [|done].
        apply elem_of_app in Hin as [Hin|Hin]; [done|].
        apply list_elem_of_singleton in Hin. injection Hin as -> ->. lia.
Qed.

Lemma read_cell_lookup sh idxs : ∀ names i,
  foldl (read_cell sh) names idxs !! i =
    if bool_decide (i ∈ idxs)
    then Some (match sh_cell sh i with
               | Some val => header_name i val
               | None => "Column " +:+ pretty i
               end)
    else names !! i.
Proof.
  induction idxs as [|k idxs IH]; intros names i; [done|].
  cbn [foldl]. rewrite IH. case_bool_decide as Hin.
  - rewrite bool_decide_eq_true_2; [done | by right].
  - unfold read_cell. destruct (decide (i = k)) as [->|Hne].
    + rewrite bool_decide_eq_true_2 by left.
      destruct (sh_cell sh k); by rewrite lookup_insert_eq.
    + rewrite bool_decide_eq_false_2.
      * destruct (sh_cell sh k); by rewrite lookup_insert_ne.
      * intros Hk. apply elem_of_cons in Hk as [?|?]; done.
Qed.

Lemma elem_of_enumerate (cells : list (option string)) i val :
  (i, val) ∈ zip (seqZ 1 (Z.of_nat (length cells))) cells ↔
    1 <= i <= Z.of_nat (length cells) ∧ cells !! Z.to_nat (i - 1) = Some val.
Proof.
  split.
  - intros H. apply elem_of_lookup_zip_with in H as (k & x & y & Heq & Hx & Hy).
    injection Heq as -> ->. apply lookup_seqZ in Hx as [-> Hlt].
    split; [lia|]. by replace (Z.to_nat (1 + Z.of_nat k - 1)) with k by lia.
  - intros [Hi Hv]. apply elem_of_lookup_zip_with.
    exists (Z.to_nat (i - 1)), i, val. split; [done|]. split; [|done].
    apply lookup_seqZ. lia.
Qed.

(** The header cache holds the columns 1 to n without a gap, for an n
    of at most 200.  Read from the whole row, n is the smaller of the
    number of cells and the column count, and column i has the text of
    cell i, or "Column i" for an empty cell; read cell by cell, n is the
    column count and a cell that cannot be read is named "Column i";
    with no used range, or a row that is a single value, the cache is
    empty. *)
Theorem header_cache_contiguous (sh : Sheet) :
  ∃ n, 0 <= n <= 200
    ∧ (∀ i, is_Some (read_all_headers sh !! i) ↔ 1 <= i <= n)
    ∧ (∀ cells, sh_used_range sh = true → sh_row sh = RowCells cells →
         n = Z.max 0 (Z.min (Z.of_nat (length cells)) (columns_count sh))
         ∧ ∀ i, 1 <= i <= n →
             ∃ val, cells !! Z.to_nat (i - 1) = Some val
               ∧ read_all_headers sh !! i = Some (default ("Column " +:+ pretty i) val))
    ∧ (sh_used_range sh = true → sh_row sh = RowRaises →
         n = Z.max 0 (columns_count sh)
         ∧ ∀ i, 1 <= i <= n →
             read_all_headers sh !! i =
               Some (match sh_cell sh i with
                     | Some val => default ("Column " +:+ pretty i) val
                     | None => "Column " +:+ pretty i
                     end))
    ∧ (sh_used_range sh = false ∨ sh_row sh = RowScalar → n = 0).
Proof.
  assert (Hcount : columns_count sh <= 200).
  { unfold columns_count. destruct (sh_columns sh); lia. }
  unfold read_all_headers. destruct (sh_used_range sh).
  2:{ exists 0. split; [lia|]. split; [|done]. intros i. rewrite lookup_empty.
      split; [by intros [] | lia]. }
  destruct (sh_row sh) as [| |cells].
  - exists (Z.max 0 (columns_count sh)). split; [lia|].
    assert (Hl : ∀ i, 1 <= i <= Z.max 0 (columns_count sh) →
              foldl (read_cell sh) ∅ (seqZ 1 (columns_count sh)) !! i =
                Some (match sh_cell sh i with
                      | Some val => header_name i val
                      | None => "Column " +:+ pretty i
                      end)).
    { intros i Hi. rewrite read_cell_lookup, bool_decide_eq_true_2; [done|].
      apply elem_of_seqZ. lia. }
    split_and!.
    + intros i. split.
      * rewrite read_cell_lookup. case_bool_decide as Hin.
        -- apply elem_of_seqZ in Hin. lia.
        -- rewrite lookup_empty. by intros [].
      * intros Hi. rewrite Hl by done. eauto.
    + done.
    + intros _ _. split; [done|]. intros i Hi. by apply Hl.
    + by intros [?|?].
  - exists 0. split; [lia|]. split; [|done]. intros i. rewrite lookup_empty.
    split; [by intros [] | lia].
  - set (n := Z.max 0 (Z.min (Z.of_nat (length cells)) (columns_count sh))).
    exists n. split; [lia|].
    assert (Hnd : NoDup (zip (seqZ 1 (Z.of_nat (length cells))) cells).*1).
    { rewrite fst_zip; [apply NoDup_seqZ|]. rewrite length_seqZ. lia. }
    pose proof (read_batch_lookup (columns_count sh) _ Hnd) as Hl.
    assert (Hin : ∀ i, 1 <= i <= n →
              ∃ val, cells !! Z.to_nat (i - 1) = Some val
                ∧ foldl (read_batch (columns_count sh)) ∅
                    (zip (seqZ 1 (Z.of_nat (length cells))) cells) !! i
                  = Some (header_name i val)).
    { intros i Hi.
      destruct (cells !! Z.to_nat (i - 1)) as [val|] eqn:Ec.
      - exists val. split; [done|]. apply Hl. exists val.
        split; [apply elem_of_enumerate; split; [lia | done]|]. split; [lia | done].
      - apply lookup_ge_None in Ec. lia. }
    split_and!.
    + intros i. split.
      * intros [name Hname]. apply Hl in Hname as (val & Hv & Hc & _).
        apply elem_of_enumerate in Hv as [Hi _]. lia.
      * intros Hi. destruct (Hin i Hi) as (val & _ & ->). eauto.
    + intros cells' _ [= <-]. split; [done|]. intros i Hi. exact (Hin i Hi).
    + done.
    + by intros [?|?].
Qed.

(** ** The application: refresh, reset and the renames *)

Section actions_facts.
Import App Actions.

Lemma rename_rename o n x : rename o n (rename o n x) = rename o n x.
Proof. unfold rename. repeat case_decide; congruence. Qed.

Lemma rename_all_again o n e : rename_all o n (rename_all o n e) = rename_all o n e.
Proof.
  unfold rename_all; cbn. f_equal.
  - rewrite map_map. apply map_ext. intros [c v i]. unfold rename_entry; cbn.
    by rewrite rename_rename.
  - rewrite map_map. apply map_ext. intros [c v i]. unfold rename_entry; cbn.
    by rewrite rename_rename.
  - apply rename_rename.
  - rewrite map_map. apply map_ext. intros x. apply rename_rename.
Qed.

Lemma rename_at_store o n locs : ∀ acc l,
  (foldl (rename_at o n) acc locs).1 !! l =
    if bool_decide (l ∈ locs) then rename_all o n <$> acc.1 !! l else acc.1 !! l.
Proof.
  unfold loc in *.
  induction locs as [|l0 locs IH]; intros [store c] l; [done|].
  cbn [foldl]. rewrite IH. unfold rename_at, loc. cbn [fst snd].
  destruct (store !! l0) as [e0|] eqn:E0; cbn [fst].
  - pose proof (lookup_lt_Some _ _ _ E0) as Hlt.
    destruct (decide (l = l0)) as [->|Hne].
    + rewrite list_lookup_insert_eq by done.
      rewrite (bool_decide_eq_true_2 (l0 ∈ l0 :: locs)) by left.
      rewrite E0. cbn. rewrite rename_all_again. by case_bool_decide.
    + rewrite list_lookup_insert_ne by done.
      case_bool_decide as H1; case_bool_decide as H2; try done.
      * exfalso. apply H2. by right.
      * exfalso. apply elem_of_cons in H2 as [?|?]; done.
  - case_bool_decide as H1; case_bool_decide as H2; try done.
    + exfalso. apply H2. by right.
    + apply elem_of_cons in H2 as [->|?]; [|done]. by rewrite E0.
Qed.

Lemma contents_renamed o n store c locs :
  contents (foldl (rename_at o n) (store, c) locs).1 locs
    = rename_all o n <$> contents store locs.
Proof.
  unfold contents. rewrite list_fmap_omap. apply list_omap_ext.
  apply Forall2_same_length_lookup. split; [done|].
  intros i l l' Hl Hl'. rewrite Hl in Hl'. injection Hl' as <-.
  rewrite rename_at_store, bool_decide_eq_true_2; [done|].
  by eapply list_elem_of_lookup_2.
Qed.

Lemma contents_cons store l locs :
  contents store (l :: locs) =
    match store !! l with
    | Some e => e :: contents store locs
    | None => contents store locs
    end.
Proof. unfold contents. cbn. by destruct (store !! l). Qed.

Lemma contents_insert_other store l e locs :
  l ∉ locs → contents (<[l := e]> store) locs = contents store locs.
Proof.
  intros Hl. unfold contents. apply list_omap_ext.
  apply Forall2_same_length_lookup. split; [done|].
  intros i l1 l2 H1 H2. rewrite H1 in H2. injection H2 as <-.
  rewrite list_lookup_insert_ne; [done|]. intros ->. apply Hl.
  by eapply list_elem_of_lookup_2.
Qed.

Lemma rename_at_step o n (store : list Event) c (l : loc) :
  rename_at o n (store, c) l =
    match store !! l with
    | Some event => (<[l := rename_all o n event]> store, (c + occurrences o event)%nat)
    | None => (store, c)
    end.
Proof. reflexivity. Qed.

Lemma rename_at_count o n locs : ∀ store c,
  NoDup locs →
  (foldl (rename_at o n) (store, c) locs).2
    = (c + sum_list (occurrences o <$> contents store locs))%nat.
Proof.
  induction locs as [|l0 locs IH]; intros store c Hnd.
  - cbn. lia.
  - apply NoDup_cons in Hnd as [Hl0 Hnd]. cbn [foldl].
    rewrite contents_cons, rename_at_step. unfold loc in *.
    destruct (store !! l0) as [e0|] eqn:E0.
    + rewrite IH by done. rewrite contents_insert_other by done.
      rewrite fmap_cons. change (sum_list (?x :: ?l)) with (x + sum_list l)%nat. lia.
    + by rewrite IH.
Qed.

Lemma refresh_visualization_spec (st : State) :
  let data := load_filter_history (files st) in
  shown (refresh_visualization st) = data
  ∧ files (refresh_visualization st) = files st
  ∧ headers (refresh_visualization st) = headers st
  ∧ (data ≠ [] →
     monitor (refresh_visualization st) = visualizer (refresh_visualization st)
     ∧ kept (refresh_visualization st) = data)
  ∧ (data = [] →
     monitor (refresh_visualization st) = monitor st
     ∧ kept (refresh_visualization st) = kept st).
Proof.
  cbv zeta. unfold refresh_visualization, visualizer_load.
  cbn [App.files App.store App.visualizer App.monitor App.headers].
  destruct (load_filter_history (files st)) as [|e data] eqn:Ed.
  - unfold shown, kept. cbn. rewrite app_nil_r. by split_and!.
  - set (log := e :: data). unfold shown, kept.
    change (seq (length (store st)) (length log)) with
      (length (store st) :: seq (S (length (store st))) (length data)).
    cbn [App.files App.store App.visualizer App.monitor App.headers].
    change (length (store st) :: seq (S (length (store st))) (length data)) with
      (seq (length (store st)) (length log)).
    rewrite contents_fresh. by split_and!.
Qed.

Lemma load_saved history w files :
  primary_ok w = true → load_filter_history (save_filter_history history w files) = history.
Proof. intros Hw. unfold save_filter_history. by rewrite Hw. Qed.

Lemma refresh_after_save store visualizer monitor headers files history w :
  primary_ok w = true →
  history = contents store monitor →
  let st' := refresh_visualization
               {| store := store; visualizer := visualizer; monitor := monitor;
                  headers := headers; files := save_filter_history history w files |} in
  shown st' = history ∧ kept st' = history
  ∧ data_file (App.files st') = Holds history ∧ App.headers st' = headers.
Proof.
  intros Hw Hh. cbv zeta.
  set (st0 := {| store := store; visualizer := visualizer; monitor := monitor;
                 headers := headers; files := save_filter_history history w files |}).
  destruct (refresh_visualization_spec st0) as (Hs & Hf & Hhd & Hne & He).
  cbv zeta in *. change (App.files st0) with (save_filter_history history w files) in *.
  rewrite load_saved in * by done.
  rewrite Hs, Hf, Hhd.
  assert (Hd : data_file (save_filter_history history w files) = Holds history).
  { unfold save_filter_history. by rewrite Hw. }
  split_and!; try done.
  destruct history as [|e history].
  - destruct (He eq_refl) as [_ ->]. by rewrite Hh.
  - by destruct (Hne ltac:(done)) as [_ ->].
Qed.

Lemma occurrences_renamed o n e : o ≠ n → occurrences o (rename_all o n e) = 0%nat.
Proof.
  intros Hne. unfold occurrences, rename_all; cbn.
  assert (Hr : ∀ x, rename o n x ≠ o).
  { intros x. unfold rename. case_decide; congruence. }
  rewrite decide_False by apply Hr.
  assert (H1 : filter (λ col, col = o) (map (rename o n) (filter_columns e)) = []).
  { induction (filter_columns e) as [|x l IH]; [done|]. cbn [map].
    by rewrite filter_cons_False by apply Hr. }
  assert (H2 : ∀ l, filter (λ f, column f = o) (map (rename_entry o n) l) = []).
  { induction l as [|x l IH]; [done|]. cbn [map].
    by rewrite filter_cons_False by apply Hr. }
  by rewrite H1, !H2.
Qed.

Lemma rename_filter_column_spec (original_name new_name : string) (w : Writes) (st : State) :
  original_name ≠ "" → new_name ≠ "" → primary_ok w = true →
  let result := rename_filter_column original_name new_name w st in
  let log := rename_all original_name new_name <$> kept st in
  shown result.1 = log
  ∧ kept result.1 = log
  ∧ data_file (files result.1) = Holds log
  ∧ headers result.1 = rename_headers original_name new_name (headers st)
  ∧ (NoDup (monitor st) →
     result.2 = sum_list (occurrences original_name <$> kept st)).
Proof.
  intros Ho Hn Hw. cbv zeta. unfold rename_filter_column.
  rewrite !bool_decide_eq_false_2 by done. cbn [orb fst snd].
  pose proof (refresh_after_save
                (foldl (rename_at original_name new_name) (store st, 0%nat) (monitor st)).1
                (visualizer st) (monitor st)
                (rename_headers original_name new_name (headers st)) (files st)
                _ w Hw eq_refl) as H.
  cbv zeta in H. rewrite contents_renamed in H. destruct H as (Hs & Hk & Hf & Hh).
  rewrite contents_renamed. split_and!; try done.
  intros Hnd. unfold kept. by rewrite rename_at_count.
Qed.

(** Renaming a column in the whole log rewrites, in every event the
    monitor holds, the label when it is the old name and every column
    field that is; the result is saved and is then the log that both
    lists show.  The header cache is rewritten too.  No label is
    protected here. *)
Theorem rename_everywhere (original_name new_name : string) (w : Writes) (st : State) :
  original_name ≠ "" → new_name ≠ "" → primary_ok w = true →
  let result := rename_filter_column original_name new_name w st in
  shown result.1 = rename_all original_name new_name <$> kept st
  ∧ kept result.1 = shown result.1
  ∧ data_file (files result.1) = Holds (shown result.1)
  ∧ headers result.1 = rename_headers original_name new_name (headers st).
Proof.
  intros Ho Hn Hw.
  destruct (rename_filter_column_spec original_name new_name w st Ho Hn Hw)
    as (Hs & Hk & Hf & Hh & _).
  cbv zeta in *. by rewrite Hs, Hk, Hf, Hh.
Qed.

Lemma rename_everywhere_witness :
  "Region" ≠ "" ∧ "Area" ≠ "" ∧ primary_ok Sample.ok = true
  ∧ shown (rename_filter_column "Region" "Area" Sample.ok Sample.opened).1
    = rename_all "Region" "Area" <$> kept Sample.opened.
Proof.
  assert (H1 : "Region" ≠ "") by discriminate.
  assert (H2 : "Area" ≠ "") by discriminate.
  split; [exact H1|]. split; [exact H2|]. split; [reflexivity|].
  exact (proj1 (rename_everywhere "Region" "Area" Sample.ok Sample.opened H1 H2 eq_refl)).
Defined.


(** The number the rename reports is the number of fields of the
    monitor's events that held the old name, the events being distinct
    objects. *)
Theorem rename_count (original_name new_name : string) (w : Writes) (st : State) :
  original_name ≠ "" → new_name ≠ "" → NoDup (monitor st) →
  (rename_filter_column original_name new_name w st).2
    = sum_list (occurrences original_name <$> kept st).
Proof.
  intros Ho Hn Hnd. unfold rename_filter_column.
  rewrite !bool_decide_eq_false_2 by done. cbn [orb fst snd].
  unfold kept. by rewrite rename_at_count.
Qed.

Lemma rename_count_witness :
  "Region" ≠ "" ∧ "Area" ≠ "" ∧ NoDup (monitor Sample.opened)
  ∧ (rename_filter_column "Region" "Area" Sample.ok Sample.opened).2
    = sum_list (occurrences "Region" <$> kept Sample.opened).
Proof.
  assert (H1 : "Region" ≠ "") by discriminate.
  assert (H2 : "Area" ≠ "") by discriminate.
  assert (H3 : NoDup (monitor Sample.opened)).
  { apply (NoDup_cons_2 0%nat [1%nat]); [|apply NoDup_singleton].
    intros H. apply list_elem_of_singleton in H. discriminate H. }
  split; [exact H1|]. split; [exact H2|]. split; [exact H3|].
  exact (rename_count "Region" "Area" Sample.ok Sample.opened H1 H2 H3).
Defined.


(** After a column was renamed in the whole log to another name, the old
    name is gone: no event shown has it as its label, in its list of
    columns or in an added or removed filter, and no header has it. *)
Theorem old_name_gone (original_name new_name : string) (w : Writes) (st : State) :
  original_name ≠ "" → new_name ≠ "" → original_name ≠ new_name → primary_ok w = true →
  let result := rename_filter_column original_name new_name w st in
  (∀ e, e ∈ shown result.1 →
     filter_column e ≠ original_name
     ∧ ¬ (original_name ∈ filter_columns e)
     ∧ (∀ f, f ∈ added_filters e ∨ f ∈ removed_filters e → column f ≠ original_name))
  ∧ ∀ i, headers result.1 !! i ≠ Some original_name.
Proof.
  intros Ho Hn Hne Hw.
  destruct (rename_filter_column_spec original_name new_name w st Ho Hn Hw)
    as (Hs & _ & _ & Hh & _).
  cbv zeta in *. rewrite Hs, Hh.
  assert (Hr : ∀ x, rename original_name new_name x ≠ original_name).
  { intros x. unfold rename. case_decide; congruence. }
  split.
  - intros e He. apply list_elem_of_fmap in He as (e0 & -> & _).
    unfold rename_all; cbn. split_and!.
    + apply Hr.
    + change (map ?f ?l) with (f <$> l). intros Hx.
      apply list_elem_of_fmap in Hx as (x & Hx & _). by apply (Hr x).
    + change (map ?f ?l) with (f <$> l).
      intros f [Hf|Hf]; (apply list_elem_of_fmap in Hf as (f0 & -> & _)); cbn; apply Hr.
  - intros i. rewrite rename_headers_lookup. destruct (headers st !! i) as [x|]; [|done].
    cbn. intros [= Hx]. by apply (Hr x).
Qed.

Lemma old_name_gone_witness :
  "Region" ≠ "" ∧ "Area" ≠ "" ∧ "Region" ≠ "Area" ∧ primary_ok Sample.ok = true
  ∧ ∀ i, headers (rename_filter_column "Region" "Area" Sample.ok Sample.opened).1 !! i
         ≠ Some "Region".
Proof.
  assert (H1 : "Region" ≠ "") by discriminate.
  assert (H2 : "Area" ≠ "") by discriminate.
  assert (H3 : "Region" ≠ "Area") by discriminate.
  split; [exact H1|]. split; [exact H2|]. split; [exact H3|]. split; [reflexivity|].
  exact (proj2 (old_name_gone "Region" "Area" Sample.ok Sample.opened H1 H2 H3 eq_refl)).
Defined.





(** A refresh shows what the files hold; when that is not empty the
    monitor's list is replaced by it, the same objects sitting in both
    lists from then on; when it is empty the monitor keeps the events it
    has. *)
Theorem refresh_takes_the_file (st : State) :
  shown (refresh_visualization st) = load_filter_history (files st)
  ∧ files (refresh_visualization st) = files st
  ∧ headers (refresh_visualization st) = headers st
  ∧ (load_filter_history (files st) ≠ [] →
     monitor (refresh_visualization st) = visualizer (refresh_visualization st)
     ∧ kept (refresh_visualization st) = load_filter_history (files st))
  ∧ (load_filter_history (files st) = [] →
     monitor (refresh_visualization st) = monitor st
     ∧ kept (refresh_visualization st) = kept st).
Proof. exact (refresh_visualization_spec st). Qed.

(** An edit of the table that is turned down changes nothing: when the
    row is not found, the new name is empty, or the event's label is empty
    or one of the two protected ones, the files and the header cache are
    as before and no event object is modified. *)
Theorem edit_turned_down (event_index : Z) (new_name : string) (w : Writes) (st : State) :
  resolve st event_index = None
  ∨ new_name = ""
  ∨ (∃ l event, resolve st event_index = Some l ∧ store st !! l = Some event
       ∧ (filter_column event = "" ∨ filter_column event ∈ protected)) →
  let st' := on_filter_column_edited event_index new_name w st in
  files st' = files st ∧ headers st' = headers st ∧ store st `prefix_of` store st'.
Proof.
  intros H. cbv zeta.
  assert (Hr : files (refresh_visualization st) = files st
             ∧ headers (refresh_visualization st) = headers st
             ∧ store st `prefix_of` store (refresh_visualization st)).
  { destruct (refresh_visualization_spec st) as (_ & Hf & Hh & _).
    split_and!; try done. unfold refresh_visualization, visualizer_load. cbn.
    destruct (seq _ _); cbn; by apply prefix_app_r. }
  unfold on_filter_column_edited.
  destruct (resolve st event_index) as [l|] eqn:El; [|done].
  destruct (store st !! l) as [event|] eqn:Ee; [|done].
  destruct H as [H|[->|(l' & event' & [= <-] & He' & H)]]; [done| |].
  - rewrite (bool_decide_eq_true_2 ("" = "")) by done. rewrite orb_true_r. done.
  - rewrite Ee in He'. injection He' as <-. destruct H as [H|H].
    + rewrite (bool_decide_eq_true_2 _ H). done.
    + destruct (bool_decide (filter_column event = "") || bool_decide (new_name = ""));
        [done|]. by rewrite (bool_decide_eq_true_2 _ H).
Qed.

Lemma edit_turned_down_witness :
  (resolve Sample.opened 0 = None
   ∨ "Everything" = ""
   ∨ ∃ l event, resolve Sample.opened 0 = Some l ∧ store Sample.opened !! l = Some event
       ∧ (filter_column event = "" ∨ filter_column event ∈ protected))
  ∧ files (on_filter_column_edited 0 "Everything" Sample.ok Sample.opened)
    = files Sample.opened
  ∧ headers (on_filter_column_edited 0 "Everything" Sample.ok Sample.opened)
    = headers Sample.opened
  ∧ store Sample.opened
      `prefix_of` store (on_filter_column_edited 0 "Everything" Sample.ok Sample.opened).
Proof.
  assert (H : resolve Sample.opened 0 = None
              ∨ "Everything" = ""
              ∨ ∃ l event, resolve Sample.opened 0 = Some l
                  ∧ store Sample.opened !! l = Some event
                  ∧ (filter_column event = "" ∨ filter_column event ∈ protected)).
  { right. right. exists 0%nat, (connection_event "2024-05-01 10:00:00" 100).
    split; [reflexivity|]. split; [reflexivity|]. right. by left. }
  split; [exact H|].
  exact (edit_turned_down 0 "Everything" Sample.ok Sample.opened H).
Defined.

End actions_facts.

(** ** The file during a session *)

Lemma tick_file p s :
  (filter_history (monitor (tick p s)) = filter_history (monitor s)
   ∧ disk (tick p s) = disk s)
  ∨ ∃ e, filter_history (monitor (tick p s)) = filter_history (monitor s) ++ [e]
      ∧ disk (tick p s)
        = save_filter_history (filter_history (monitor s) ++ [e]) (p_write p) (disk s).
Proof.
  destruct (tick_cases p s)
    as [(_ & H & Hd & _)|[(_ & _ & ->)|[(c & _ & _ & _ & ->)|(c & _ & _ & _ & ->)]]];
    [by left | by left | by left |].
  rewrite record_change_history, record_change_disk.
  destruct (significant _ _); [right | by left]. by eexists.
Qed.

Lemma save_data_file history w d :
  data_file (save_filter_history history w d)
    = if primary_ok w then Holds history else data_file d.
Proof. unfold save_filter_history. by destruct (primary_ok w), (backup_ok w). Qed.

Lemma load_filter_history_holds d f :
  data_file d = Holds f → load_filter_history d = f.
Proof. intros Hd. unfold load_filter_history. by rewrite Hd. Qed.

Lemma last_100_nil (l : list Event) : drop (length l - 100) l = [] → l = [].
Proof.
  intros H. apply (f_equal length) in H. rewrite length_drop in H.
  destruct l; [done|]. cbn in H. lia.
Qed.

Lemma tick_grows k p s : grows k s → grows k (tick p s).
Proof.
  intros (z & y & Hf & Hl). unfold grows.
  destruct (tick_file p s) as [[-> ->]|(e & -> & ->)]; [by exists z, y|].
  rewrite save_data_file, Hl, Hf. destruct (primary_ok (p_write p)).
  - exists (z ++ y ++ [e]), []. by rewrite app_nil_r, !app_assoc.
  - exists z, (y ++ [e]). by rewrite !app_assoc.
Qed.

Lemma auto_refresh_grows k ws : grows k ws.1 → grows k (auto_refresh ws).1.
Proof.
  intros (z & y & Hf & Hl). unfold grows, auto_refresh.
  destruct (_ && _); [by exists z, y|].
  rewrite (load_filter_history_holds _ _ Hf).
  destruct (k ++ z) as [|e0 f] eqn:Ef; cbn [fst]; [by exists z, y; rewrite Ef|].
  exists z, []. cbn. by rewrite Ef, app_nil_r.
Qed.

Lemma play_grows k moves : ∀ ws, grows k ws.1 → grows k (play moves ws).1.
Proof.
  induction moves as [|[p|] moves IH]; intros ws H; [done| |]; apply IH.
  - by apply tick_grows.
  - by apply auto_refresh_grows.
Qed.

Lemma tick_capped l p s :
  capped l s → capped l (tick p s) ∨ grows (drop (length l - 100) l) (tick p s).
Proof.
  intros (Hf & x & Hl). unfold capped, grows.
  destruct (tick_file p s) as [[E1 E2]|(e & E1 & E2)].
  - left. split; [by rewrite E2|]. exists x. by rewrite E1.
  - destruct (primary_ok (p_write p)) eqn:Ew.
    + right. exists (x ++ [e]), [].
      rewrite E1, E2, save_data_file, Ew, Hl. by rewrite app_nil_r, !app_assoc.
    + left. split; [by rewrite E2, save_data_file, Ew|].
      exists (x ++ [e]). by rewrite E1, Hl, app_assoc.
Qed.

Lemma auto_refresh_capped l ws : capped l ws.1 → grows l (auto_refresh ws).1.
Proof.
  intros (Hf & x & Hl). unfold grows, auto_refresh.
  rewrite (load_filter_history_holds _ _ Hf).
  destruct l as [|e0 l].
  - assert (grows [] ws.1) by (exists [], x; by rewrite Hf, Hl).
    by destruct (_ && _).
  - rewrite andb_comm. rewrite (bool_decide_eq_false_2 (filter_history (monitor ws.1) = [])).
    + cbn. exists [], []. cbn. by rewrite Hf, !app_nil_r.
    + rewrite Hl. intros E. apply app_eq_nil in E as [E _]. by apply last_100_nil in E.
Qed.

Lemma start_session_capped b m d s l :
  data_file d = Holds l → start_session b m d = Some s →
  capped l s ∨ grows (drop (length l - 100) l) s.
Proof.
  intros Hd. unfold start_session. destruct (b_connect b) as [headers|]; [|done].
  intros [= <-]. rewrite (load_history_holds d _ l Hd).
  change max_history_length with 100%nat.
  set (c := drop (length l - 100) l). unfold capped, grows.
  cbn [disk monitor filter_history].
  destruct (negb (bool_decide (0 < original_total_rows c) && _));
    destruct (negb (bool_decide (b_filters b = [])) && _);
    rewrite ?save_data_file;
    destruct (primary_ok (b_write b)); destruct (primary_ok (b_write' b)).
  all: try (left; split; [exact Hd|]; by eexists).
  all: try (left; split; [exact Hd|]; exists []; by rewrite app_nil_r).
  all: try (left; split; [exact Hd|]; eexists [_; _]; by rewrite <- app_assoc).
  all: try (right; eexists [_; _], []; by rewrite app_nil_r, <- app_assoc).
  all: try (right; eexists [_], []; by rewrite app_nil_r).
  all: try (right; eexists [_], [_]; done).
Qed.

Lemma play_inv l moves : ∀ ws,
  capped l ws.1 ∨ grows (drop (length l - 100) l) ws.1 ∨ grows l ws.1 →
  capped l (play moves ws).1 ∨ grows (drop (length l - 100) l) (play moves ws).1
  ∨ grows l (play moves ws).1.
Proof.
  induction moves as [|[p|] moves IH]; intros ws H; [done| |]; apply IH; cbn [move fst].
  - destruct H as [H|[H|H]].
    + destruct (tick_capped l p _ H); auto.
    + right; left. by apply tick_grows.
    + right; right. by apply tick_grows.
  - destruct H as [H|[H|H]].
    + right; right. by apply auto_refresh_capped.
    + right; left. by apply auto_refresh_grows.
    + right; right. by apply auto_refresh_grows.
Qed.

Lemma play_polls (c : list Event) moves : ∀ ws,
  Refresh ∉ moves →
  (∃ x, filter_history (monitor ws.1) = c ++ x) →
  ∃ x, filter_history (monitor (play moves ws).1) = c ++ x.
Proof.
  induction moves as [|[p|] moves IH]; intros ws Hn H; [done| |].
  - apply IH; [by intros ?; apply Hn; right|]. cbn [move fst].
    destruct H as [x Hx]. destruct (tick_file p ws.1) as [[-> _]|(e & -> & _)].
    + by exists x.
    + exists (x ++ [e]). by rewrite Hx, app_assoc.
  - exfalso. apply Hn. by left.
Qed.

Lemma stop_data_file w s :
  primary_ok w = true → data_file (stop w s).2 = Holds (filter_history (monitor s)).
Proof. intros Hw. unfold stop. cbn [snd]. by rewrite save_data_file, Hw. Qed.

(** C9, as the code has it: the load that opens a session keeps the last
    100 events in memory and every save writes the list in memory over
    the file.  After a session on a file that held [l], ended by a save
    that reaches the file, the file starts with the last 100 events of
    [l] or with all of [l], and goes on with what was appended.  It is
    the last 100 when no refresh of the window came between the load and
    the saves; it is all of [l] when a refresh came first, the start of
    the session having written nothing. *)
Theorem file_after_session (b : Boot) (m : Monitor) (d : Disk) (moves : list Move)
    (shown : list Event) (w : Writes) (s : Loop) (l : list Event) :
  data_file d = Holds l →
  start_session b m d = Some s →
  primary_ok w = true →
  let after := data_file (stop w (play moves (s, shown)).1).2 in
  let last_100 := drop (length l - 100) l in
  (∃ appended, after = Holds (last_100 ++ appended) ∨ after = Holds (l ++ appended))
  ∧ (Refresh ∉ moves → ∃ appended, after = Holds (last_100 ++ appended))
  ∧ (∀ rest, moves = Refresh :: rest → disk s = d →
       ∃ appended, after = Holds (l ++ appended)).
Proof.
  intros Hd Hs Hw. cbv zeta. rewrite (stop_data_file _ _ Hw).
  pose proof (start_session_capped _ _ _ _ _ Hd Hs) as H0.
  destruct (start_session_history _ _ _ _ Hs) as (_ & app0 & Happ0 & _).
  rewrite (load_history_holds d _ l Hd) in Happ0.
  change max_history_length with 100%nat in Happ0.
  split_and!.
  - destruct (play_inv l moves (s, shown)) as [(_ & x & ->)|[(z & y & _ & ->)|(z & y & _ & ->)]].
    + destruct H0; auto.
    + exists x. by left.
    + exists (z ++ y). left. by rewrite app_assoc.
    + exists (z ++ y). right. by rewrite app_assoc.
  - intros Hn. destruct (play_polls (drop (length l - 100) l) moves (s, shown) Hn) as [x ->].
    + by exists app0.
    + by exists x.
  - intros rest -> Hds.
    assert (Hc : capped l (s, shown).1).
    { split; cbn [fst]; [by rewrite Hds|]. by exists app0. }
    apply auto_refresh_capped in Hc.
    destruct (play_grows l rest _ Hc) as (z & y & _ & Hl).
    exists (z ++ y). change (play (Refresh :: rest) (s, shown)) with
      (play rest (auto_refresh (s, shown))). by rewrite Hl, app_assoc.
Qed.

Lemma resumed_long_started :
  start_session (Sample.boot 100) Sample.no_monitor Sample.long_disk
    = Some Case.resumed_long.
Proof. vm_compute. reflexivity. Qed.

Lemma file_after_session_witness :
  data_file Sample.long_disk = Holds Sample.long_log
  ∧ start_session (Sample.boot 100) Sample.no_monitor Sample.long_disk
      = Some Case.resumed_long
  ∧ primary_ok Sample.ok = true
  ∧ ¬ (Refresh ∈ [Poll Case.narrowing])
  ∧ ∃ appended,
      data_file (stop Sample.ok
                   (play [Poll Case.narrowing] (Case.resumed_long, Sample.long_log)).1).2
        = Holds (drop (length Sample.long_log - 100) Sample.long_log ++ appended).
Proof.
  assert (Hn : Refresh ∉ [Poll Case.narrowing]).
  { intros H. apply list_elem_of_singleton in H. discriminate H. }
  split; [reflexivity|]. split; [exact resumed_long_started|]. split; [reflexivity|].
  split; [exact Hn|].
  exact (proj1 (proj2 (file_after_session (Sample.boot 100) Sample.no_monitor
                         Sample.long_disk [Poll Case.narrowing] Sample.long_log Sample.ok
                         Case.resumed_long Sample.long_log
                         eq_refl resumed_long_started eq_refl)) Hn).
Defined.

(** On a file of 101 events: a poll that logs an event before any refresh
    leaves the last 100 and the new one, the oldest is gone; with a
    refresh before the poll all 101 are kept. *)
Example file_cut_by_first_save :
  data_file (stop Sample.ok
               (play [Poll Case.narrowing] (Case.resumed_long, Sample.long_log)).1).2
    = Holds (drop 1 Sample.long_log ++ [Case.narrowed_long]).
Proof. vm_compute. reflexivity. Qed.

Example file_whole_after_refresh :
  data_file (stop Sample.ok
               (play [Refresh; Poll Case.narrowing]
                  (Case.resumed_long, Sample.long_log)).1).2
    = Holds (Sample.long_log ++ [Case.narrowed_long]).
Proof. vm_compute. reflexivity. Qed.
